(** * python-inotify, [inotify/newwatcher.py]: the watch registry, the
    symlink-chain resolution and the event dispatch, embedded in Rocq.

    The Python objects are records; the dictionaries of [Watcher] are
    [gmap]s; the mutable [_Watch] objects live in an object store and are
    referred to by identity, because a [_Link] keeps a reference to its
    owning [_Watch] while that object is still being filled, and a
    descriptor keeps the links' bound methods.  A method is a state
    transformer over this store that returns a value, raises a Python
    exception, or is stuck (the model only: out of fuel, dangling identity).
    State changes made before an exception stay, as in Python.

    What the file does not define is outside the embedding:
    - the operating system and the [_inotify] extension module are the
      record [World] (what [os.readlink], [os.stat], [inotify.add_watch] and
      [inotify.read] answer);
    - the flag values and the [constants] table are the record [Consts];
      Linux's values are an instance.
    Python is read as Python defines it: [os.errno] is the [errno] module
    (Python 3.3 to 3.6; the file uses [yield from]), [os] has no attribute
    [join], and [posixpath.join] requires its first argument.  A name the
    file uses and binds nowhere raises as Python raises: the exception
    classes [InotifyWatcherException] and [NoFilesException] are bound by
    no statement of the module, so the [raise] statements that name them
    raise [NameError]; class [_Watch] defines no [update_mask], so the call
    of it raises [AttributeError].  A generator is run to its end where the
    code iterates over it. *)

From Stdlib Require Import ZArith List String Ascii Bool Lia.
From stdpp Require Import base tactics option list gmap strings fin_maps.

Local Open Scope string_scope.
Local Open Scope list_scope.
Local Open Scope Z_scope.

(** ** Python exceptions and results *)

(** The [errno] values the code distinguishes, and a few it lets through. *)
Inductive errno : Type := EINVAL | ENOENT | ENOTDIR | EACCES | ENOSPC | ELOOP.

Definition errno_eqb (a b : errno) : bool :=
  match a, b with
  | EINVAL, EINVAL | ENOENT, ENOENT | ENOTDIR, ENOTDIR
  | EACCES, EACCES | ENOSPC, ENOSPC | ELOOP, ELOOP => true
  | _, _ => false
  end.

(** The exceptions that can leave the code, all Python's own.
    [NameError name] is the failed lookup of the global [name];
    [KeyError] is the failed lookup of a watch descriptor in the registry,
    [KeyError_str] that of a flag name in the [constants] table. *)
Inductive exn : Type :=
  | OSError (e : errno)
  | NameError (name : string)
  | AttributeError (msg : string)
  | TypeError (msg : string)
  | KeyError (key : Z)
  | KeyError_str (key : string).

(** What a call does: return, raise, or (model only) fail to make sense. *)
Inductive res (A : Type) : Type :=
  | Val (a : A)
  | Exc (e : exn)
  | Stuck.
Arguments Val {A} a.
Arguments Exc {A} e.
Arguments Stuck {A}.

Definition res_bind {A B : Type} (r : res A) (k : A -> res B) : res B :=
  match r with
  | Val a => k a
  | Exc e => Exc e
  | Stuck => Stuck
  end.

(** ** [str.split] and [os.path] (posixpath) *)

Module posixpath.

Definition sep : string := "/".

Definition is_sep (c : ascii) : bool := Ascii.eqb c "/"%char.

(** [s.split('/')]: never empty, [''.split('/') == ['']]. *)
Fixpoint str_split (s : string) : list string :=
  match s with
  | EmptyString => [EmptyString]
  | String c r =>
      if is_sep c then EmptyString :: str_split r
      else match str_split r with
           | h :: t => String c h :: t
           | [] => [String c EmptyString]
           end
  end.

Definition startswith_sep (s : string) : bool :=
  match s with
  | String c _ => is_sep c
  | EmptyString => false
  end.

Fixpoint endswith_sep (s : string) : bool :=
  match s with
  | EmptyString => false
  | String c EmptyString => is_sep c
  | String _ r => endswith_sep r
  end.

(** One step of [posixpath.join]'s loop over the further components. *)
Definition join2 (path b : string) : string :=
  if startswith_sep b then b
  else if String.eqb path "" || endswith_sep path then path +:+ b
  else path +:+ "/" +:+ b.

(** [posixpath.join] applied to [a] and the further components [p]. *)
Definition join (a : string) (p : list string) : string := fold_left join2 p a.

(** [path.join] applied to the unpacked list [l]: the first argument is
    required. *)
Definition join_star (l : list string) : res string :=
  match l with
  | [] => Exc (TypeError "join() missing 1 required positional argument: 'a'")
  | a :: p => Val (join a p)
  end.

(** [(p[:i], p[i:])] for [i = p.rfind('/') + 1]. *)
Fixpoint cut_last_sep (p : string) : string * string :=
  match p with
  | EmptyString => (EmptyString, EmptyString)
  | String c r =>
      match cut_last_sep r with
      | (EmptyString, t) =>
          if is_sep c then (String c EmptyString, t) else (EmptyString, String c t)
      | (h, t) => (String c h, t)
      end
  end.

(** [s.rstrip('/')]. *)
Fixpoint rstrip_sep (s : string) : string :=
  match s with
  | EmptyString => EmptyString
  | String c r =>
      match rstrip_sep r with
      | EmptyString => if is_sep c then EmptyString else String c EmptyString
      | r' => String c r'
      end
  end.

(** [posixpath.split(p)]: the head loses its trailing slashes unless it is
    made of slashes only. *)
Definition split (p : string) : string * string :=
  let (head, tail) := cut_last_sep p in
  match rstrip_sep head with
  | EmptyString => (head, tail)
  | stripped => (stripped, tail)
  end.

Definition dirname (p : string) : string := fst (split p).

End posixpath.

(** ** The collaborator's constants *)

(** The flag values [newwatcher.py] reads as attributes of [_inotify], and
    the [constants] table of the package (flag name to bit value).  Python
    iterates [constants.values()] in the dictionary's order; the table is the
    list of its items in that order. *)
Record Consts : Type := {
  IN_MOVE_SELF : Z;
  IN_DELETE_SELF : Z;
  IN_MOVE : Z;
  IN_DELETE : Z;
  IN_CREATE : Z;
  IN_ONLYDIR : Z;
  IN_IGNORED : Z;
  constants : list (string * Z)
}.

(** [constants[key]]. *)
Fixpoint table_get (key : string) (t : list (string * Z)) : option Z :=
  match t with
  | [] => None
  | (k, v) :: r => if String.eqb k key then Some v else table_get key r
  end.

(** [constants[key] = v]. *)
Fixpoint table_set (key : string) (v : Z) (t : list (string * Z)) : list (string * Z) :=
  match t with
  | [] => [(key, v)]
  | (k, x) :: r => if String.eqb k key then (k, v) :: r else (k, x) :: table_set key v r
  end.

(** [functools.reduce(operator.or_, values)], no initial value. *)
Definition reduce_or (values : list Z) : res Z :=
  match values with
  | [] => Exc (TypeError "reduce() of empty sequence with no initial value")
  | x :: xs => Val (fold_left Z.lor xs x)
  end.

(** [while l < u: l <<= 1], [None] when the fuel runs out. *)
Fixpoint shift_until (fuel : nat) (l u : Z) : option Z :=
  match fuel with
  | O => None
  | S fuel' => if l <? u then shift_until fuel' (Z.shiftl l 1) u else Some l
  end.

(** The names the module binds when it is imported (lines 80 to 84). *)
Record Globals : Type := {
  inotify_builtin_constants : Z;
  IN_LINK_CHANGED : Z;
  constants' : list (string * Z)
}.

Definition import_module (fuel : nat) (K : Consts) : res Globals :=
  res_bind (reduce_or (map snd (constants K))) (fun u =>
  match shift_until fuel 1 u with
  | None => Stuck
  | Some l =>
      Val {| inotify_builtin_constants := u;
             IN_LINK_CHANGED := l;
             constants' := table_set "IN_LINK_CHANGED" l (constants K) |}
  end).

(** The keys of [_event_props] (lines 43 to 68), as the file writes them. *)
Definition event_props : list string :=
  [ "unmount"; "q_overflow"; "ignored"; "isdir";
    "access"; "modify"; "attrib"; "close"; "close_write"; "close_nowrite"; "open";
    "move"; "moved_from"; "moved_to"; "create"; "delete"; "delete_self"; "move_self";
    "link_changed" ].

(** [str.upper], on ASCII letters. *)
Definition ascii_upper (c : ascii) : ascii :=
  let n := nat_of_ascii c in
  if (97 <=? n)%nat && (n <=? 122)%nat then ascii_of_nat (n - 32) else c.

Fixpoint upper (s : string) : string :=
  match s with
  | EmptyString => EmptyString
  | String c r => String (ascii_upper c) (upper r)
  end.

(** ['IN_' + name.upper()] of [_make_getter]. *)
Definition flag_key (name : string) : string := "IN_" +:+ upper name.

(** The loop of lines 158 to 159 over the names of [_event_props], taken
    in the order [order] in which Python iterates the dictionary:
    [_make_getter] evaluates [constants[key]], the default of the getter's
    [mask], when the getter is defined, and a missing key raises there. *)
Fixpoint make_getters (order : list string) (t : list (string * Z)) : res unit :=
  match order with
  | [] => Val tt
  | name :: rest =>
      match table_get (flag_key name) t with
      | None => Exc (KeyError_str (flag_key name))
      | Some _ => make_getters rest t
      end
  end.

(** What the import of the module computes: lines 80 to 84, then the
    getters over the table that line 84 extended. *)
Definition import_newwatcher (fuel : nat) (K : Consts) (order : list string)
    : res Globals :=
  res_bind (import_module fuel K) (fun g =>
  res_bind (make_getters order (constants' g)) (fun _ => Val g)).

(** [u] is a power of two. *)
Definition is_pow2 (u : Z) : bool := u =? 2 ^ Z.log2 u.

(** The flag values of Linux's <sys/inotify.h>, as an instance. *)
Definition linux_table : list (string * Z) :=
  [ ("IN_ACCESS", 0x1); ("IN_MODIFY", 0x2); ("IN_ATTRIB", 0x4);
    ("IN_CLOSE_WRITE", 0x8); ("IN_CLOSE_NOWRITE", 0x10); ("IN_CLOSE", 0x18);
    ("IN_OPEN", 0x20); ("IN_MOVED_FROM", 0x40); ("IN_MOVED_TO", 0x80);
    ("IN_MOVE", 0xc0); ("IN_CREATE", 0x100); ("IN_DELETE", 0x200);
    ("IN_DELETE_SELF", 0x400); ("IN_MOVE_SELF", 0x800);
    ("IN_UNMOUNT", 0x2000); ("IN_Q_OVERFLOW", 0x4000); ("IN_IGNORED", 0x8000);
    ("IN_ONLYDIR", 0x1000000); ("IN_DONT_FOLLOW", 0x2000000);
    ("IN_EXCL_UNLINK", 0x4000000); ("IN_MASK_ADD", 0x20000000);
    ("IN_ISDIR", 0x40000000); ("IN_ONESHOT", 0x80000000);
    ("IN_ALL_EVENTS", 0xfff) ].

Definition linux : Consts :=
  {| IN_MOVE_SELF := 0x800; IN_DELETE_SELF := 0x400; IN_MOVE := 0xc0;
     IN_DELETE := 0x200; IN_CREATE := 0x100; IN_ONLYDIR := 0x1000000;
     IN_IGNORED := 0x8000; constants := linux_table |}.

(** ** Events, links, watches, descriptors *)

(** A raw event of [inotify.read], and the [semirawevent] named tuple: the
    same four attributes. *)
Record rawevent : Type := {
  raw_wd : Z;
  raw_mask : Z;
  raw_cookie : Z;
  raw_name : option string
}.

Definition semirawevent (mask cookie : Z) (name : option string) (wd : Z) : rawevent :=
  {| raw_wd := wd; raw_mask := mask; raw_cookie := cookie; raw_name := name |}.

(** [Event]: its five slots. *)
Record Event : Type := {
  ev_raw : rawevent;
  ev_path : string;
  ev_mask : Z;
  ev_cookie : Z;
  ev_name : option string
}.

(** [Event.__init__(raw, path)]. *)
Definition Event_init (raw : rawevent) (path : string) : Event :=
  {| ev_raw := raw; ev_path := path; ev_mask := raw_mask raw;
     ev_cookie := raw_cookie raw; ev_name := raw_name raw |}.

(** [Event.fullpath]: [if self.name] is false for [None] and for ['']. *)
Definition Event_fullpath (e : Event) : string :=
  match ev_name e with
  | Some (String c r) => posixpath.join (ev_path e) [String c r]
  | _ => ev_path e
  end.

(** The property that [_make_getter] builds for the flag under [key] of the
    table: [self.mask & constants[key]]. *)
Definition Event_getter (G : Globals) (key : string) (e : Event) : option Z :=
  Z.land (ev_mask e) <$> table_get key (constants' G).

(** A [_Link]; [l_watch] is the identity of the owning [_Watch], [l_wd] the
    key of the [_Descriptor] that [_createwatch] returned. *)
Record Link : Type := {
  l_idx : nat;
  l_watch : nat;
  l_mask : Z;
  l_path : string;
  l_name : option string;
  l_wd : Z
}.

(** A [_Watch] object. *)
Record Watch : Type := {
  w_path : list string;
  w_cwd : string;
  w_mask : Z;
  w_links : list Link;
  w_inode : option (Z * Z)
}.

(** The bound method [link.handle_event] kept by a descriptor: it reads the
    link's [idx] and [watch] and nothing else. *)
Record callback : Type := {
  cb_watch : nat;
  cb_idx : nat
}.

(** A [_Descriptor]. *)
Record Descriptor : Type := {
  d_wd : Z;
  d_mask : Z;
  d_callbacks : list (Z * option string * callback)
}.

(** The [Watcher] ([watchdescriptors], [paths], [buffer]), the [_Watch]
    objects by identity, and the number of [inotify.read] calls made. *)
Record Store : Type := {
  watchdescriptors : gmap Z Descriptor;
  paths : gmap string nat;
  buffer : list Event;
  objects : gmap nat Watch;
  next_id : nat;
  lowreads : nat
}.

(** What the operating system and [_inotify] answer.  [inotify_read n b] is
    the answer to the [n]-th call of [inotify.read] with buffer size [b]. *)
Record World : Type := {
  os_readlink : string -> errno + string;
  os_stat : string -> errno + (Z * Z);
  os_getcwd : string;
  inotify_add_watch : string -> Z -> errno + Z;
  inotify_read : nat -> option Z -> errno + list rawevent
}.

(** ** Methods as state transformers *)

Definition M (A : Type) : Type := Store -> res A * Store.

Definition ret {A : Type} (a : A) : M A := fun s => (Val a, s).

Definition raise {A : Type} (e : exn) : M A := fun s => (Exc e, s).

Definition stuck {A : Type} : M A := fun s => (Stuck, s).

Definition bind {A B : Type} (c : M A) (k : A -> M B) : M B :=
  fun s =>
    match c s with
    | (Val a, s') => k a s'
    | (Exc e, s') => (Exc e, s')
    | (Stuck, s') => (Stuck, s')
    end.

Notation "x <- c ;; k" := (bind c (fun x => k))
  (at level 100, c at next level, right associativity).
Notation "c ;;; k" := (bind c (fun _ => k))
  (at level 100, right associativity).

Definition get : M Store := fun s => (Val s, s).

Definition lift {A : Type} (r : res A) : M A := fun s => (r, s).

(** A call into the operating system: an [errno] is raised as [OSError]. *)
Definition lift_os {A : Type} (r : errno + A) : M A :=
  match r with
  | inl e => raise (OSError e)
  | inr a => ret a
  end.

(** [try: c  except OSError as e: h e]; any other exception passes. *)
Definition try_except_OSError {A : Type} (c : M A) (h : errno -> M A) : M A :=
  fun s =>
    match c s with
    | (Exc (OSError e), s') => h e s'
    | r => r
    end.

(** Assignments to the attributes of the [Watcher] and to the object store. *)
Definition with_watchdescriptors (m : gmap Z Descriptor) (s : Store) : Store :=
  {| watchdescriptors := m; paths := paths s; buffer := buffer s;
     objects := objects s; next_id := next_id s; lowreads := lowreads s |}.

Definition with_paths (m : gmap string nat) (s : Store) : Store :=
  {| watchdescriptors := watchdescriptors s; paths := m; buffer := buffer s;
     objects := objects s; next_id := next_id s; lowreads := lowreads s |}.

Definition with_buffer (b : list Event) (s : Store) : Store :=
  {| watchdescriptors := watchdescriptors s; paths := paths s; buffer := b;
     objects := objects s; next_id := next_id s; lowreads := lowreads s |}.

Definition with_objects (m : gmap nat Watch) (s : Store) : Store :=
  {| watchdescriptors := watchdescriptors s; paths := paths s; buffer := buffer s;
     objects := m; next_id := next_id s; lowreads := lowreads s |}.

Definition set_watchdescriptors (m : gmap Z Descriptor) : M unit :=
  fun s => (Val tt, with_watchdescriptors m s).

Definition set_paths (m : gmap string nat) : M unit :=
  fun s => (Val tt, with_paths m s).

Definition set_buffer (b : list Event) : M unit :=
  fun s => (Val tt, with_buffer b s).

Definition get_watch (self : nat) : M Watch :=
  fun s =>
    match objects s !! self with
    | Some w => (Val w, s)
    | None => (Stuck, s)
    end.

Definition set_watch (self : nat) (w : Watch) : M unit :=
  fun s => (Val tt, with_objects (<[self := w]> (objects s)) s).

(** A new object: its identity is fresh. *)
Definition alloc (w : Watch) : M nat :=
  fun s => (Val (next_id s),
            {| watchdescriptors := watchdescriptors s; paths := paths s; buffer := buffer s;
               objects := <[next_id s := w]> (objects s); next_id := S (next_id s);
               lowreads := lowreads s |}).

(** [Watcher.__init__]. *)
Definition Watcher_init : Store :=
  {| watchdescriptors := ∅; paths := ∅; buffer := []; objects := ∅;
     next_id := 0%nat; lowreads := 0%nat |}.

(** [_Descriptor.__init__]. *)
Definition Descriptor_init (wd : Z) : Descriptor :=
  {| d_wd := wd; d_mask := 0; d_callbacks := [] |}.

(** [_Descriptor.add_callback]. *)
Definition Descriptor_add_callback (pth : string) (mask : Z) (name : option string)
    (cb : callback) (d : Descriptor) : Descriptor :=
  {| d_wd := d_wd d; d_mask := Z.lor (d_mask d) mask;
     d_callbacks := d_callbacks d ++ [(mask, name, cb)] |}.

(** What [_createwatch] does to the registry once [add_watch] answered
    [wd]: a descriptor is created if [wd] is new, and the callback is added. *)
Definition register (pth : string) (mask : Z) (name : option string) (cb : callback)
    (wd : Z) (m : gmap Z Descriptor) : gmap Z Descriptor :=
  alter (Descriptor_add_callback pth mask name cb) wd
    (match m !! wd with
     | None => <[wd := Descriptor_init wd]> m
     | Some _ => m
     end).

(** [n == None or n == event.name]. *)
Definition name_matches (n : option string) (event_name : option string) : bool :=
  match n, event_name with
  | None, _ => true
  | Some x, Some y => String.eqb x y
  | Some _, None => false
  end.

(** [_Watch._normpath]. *)
Definition Watch_normpath (pth : string) : list string :=
  List.filter (fun p => negb (String.eqb p "" || String.eqb p "."))
              (posixpath.str_split pth).

(** [os.join]: the [os] module has no such attribute. *)
Definition os_join (a b : string) : M string :=
  raise (AttributeError "module 'os' has no attribute 'join'").

(** How one turn of the [while True] loop of [_Watch.add] ends. *)
Inductive control : Type :=
  | Continue (pth : string) (linkdepth : nat)
  | Break (pth : string)
  | Return.

Section Methods.

Context (K : Consts) (G : Globals) (W : World).

(** [Watcher._createwatch]; the descriptor it returns is named by its key. *)
Definition Watcher_createwatch (pth : string) (name : option string) (mask : Z)
    (cb : callback) : M Z :=
  wd <- lift_os (inotify_add_watch W pth mask) ;;
  s <- get ;;
  (match watchdescriptors s !! wd with
   | None => set_watchdescriptors (<[wd := Descriptor_init wd]> (watchdescriptors s))
   | Some _ => ret tt
   end) ;;;
  s <- get ;;
  set_watchdescriptors
    (alter (Descriptor_add_callback pth mask name cb) wd (watchdescriptors s)) ;;;
  ret wd.

(** [Watcher._removewatch]: [del] of a missing key raises [KeyError]. *)
Definition Watcher_removewatch (d : Descriptor) : M unit :=
  s <- get ;;
  match watchdescriptors s !! d_wd d with
  | None => raise (KeyError (d_wd d))
  | Some _ => set_watchdescriptors (delete (d_wd d) (watchdescriptors s))
  end.

(** [_Link.__init__]. *)
Definition Link_init (idx : nat) (watch : nat) (mask : Z) (pth : string)
    (name : option string) : M Link :=
  wd <- Watcher_createwatch pth name mask {| cb_watch := watch; cb_idx := idx |} ;;
  ret {| l_idx := idx; l_watch := watch; l_mask := mask; l_path := pth;
         l_name := name; l_wd := wd |}.

(** [self.links.append(l)]. *)
Definition Watch_links_append (self : nat) (l : Link) : M unit :=
  w <- get_watch self ;;
  set_watch self
    {| w_path := w_path w; w_cwd := w_cwd w; w_mask := w_mask w;
       w_links := w_links w ++ [l]; w_inode := w_inode w |}.

(** [_Watch.addleaf]. *)
Definition Watch_addleaf (self : nat) (pth : string) : M unit :=
  w <- get_watch self ;;
  let mask := Z.lor (Z.lor (w_mask w) (IN_MOVE_SELF K)) (IN_DELETE_SELF K) in
  l <- Link_init (length (w_links w)) self mask pth None ;;
  Watch_links_append self l ;;;
  st <- lift_os (os_stat W pth) ;;
  w <- get_watch self ;;
  set_watch self
    {| w_path := w_path w; w_cwd := w_cwd w; w_mask := w_mask w;
       w_links := w_links w; w_inode := Some st |}.

(** [_Watch.addlink]. *)
Definition Watch_addlink (self : nat) (pth : string) : M unit :=
  let (pth, name) := posixpath.split pth in
  let mask := Z.lor (Z.lor (Z.lor (IN_MOVE K) (IN_DELETE K)) (IN_CREATE K)) (IN_ONLYDIR K) in
  w <- get_watch self ;;
  l <- Link_init (length (w_links w)) self mask pth (Some name) ;;
  Watch_links_append self l.

(** The body of the loop of [_Watch.add]: the [try] block and its handler.
    Line 257 looks the global [InotifyWatcherException] up before anything
    else of the [raise] statement; no statement of the module binds it. *)
Definition Watch_add_step (self : nat) (pth : string) (linkdepth : nat) : M control :=
  try_except_OSError
    (link <- lift_os (os_readlink W pth) ;;
     Watch_addlink self pth ;;;
     pth <- os_join (posixpath.dirname pth) link ;;
     ret (Continue pth (S linkdepth)))
    (fun e =>
       if errno_eqb e EINVAL then ret (Break pth)
       else if errno_eqb e ENOENT || errno_eqb e ENOTDIR then
         if Nat.eqb linkdepth 0
         then raise (NameError "InotifyWatcherException")
         else ret Return
       else raise (OSError e)).

(** [_Watch.add]: the loop, then [addleaf] after a [break]. *)
Fixpoint Watch_add_loop (fuel : nat) (self : nat) (pth : string) (linkdepth : nat)
    : M unit :=
  match fuel with
  | O => stuck
  | S fuel' =>
      c <- Watch_add_step self pth linkdepth ;;
      match c with
      | Continue pth' linkdepth' => Watch_add_loop fuel' self pth' linkdepth'
      | Break pth' => Watch_addleaf self pth'
      | Return => ret tt
      end
  end.

Definition Watch_add (fuel : nat) (self : nat) (pth : string) : M unit :=
  Watch_add_loop fuel self pth 0%nat.

(** [_Watch.__init__]; the value is the identity of the new object. *)
Definition Watch_init (fuel : nat) (pth : string) (mask : Z) : M nat :=
  self <- alloc {| w_path := Watch_normpath pth; w_cwd := os_getcwd W; w_mask := mask;
                   w_links := []; w_inode := None |} ;;
  Watch_add fuel self pth ;;;
  ret self.

(** [Watcher.add].  For a path that has an entry, line 175 looks the
    attribute [update_mask] up on the [_Watch] object of the entry; class
    [_Watch] (lines 222 to 279) defines no such method and has no base class
    but [object]. *)
Definition Watcher_add (fuel : nat) (pth : string) (mask : Z) : M nat :=
  s <- get ;;
  (match paths s !! pth with
   | Some old => raise (AttributeError "'_Watch' object has no attribute 'update_mask'")
   | None => ret tt
   end) ;;;
  new <- Watch_init fuel pth mask ;;
  s <- get ;;
  set_paths (<[pth := new]> (paths s)) ;;;
  ret new.

(** [_Watch.handle_event(event, pth)]: the generator yields one event, or
    raises when it is first resumed. *)
Definition Watch_handle_event (self : nat) (event : rawevent) (idx : nat)
    : M (list Event) :=
  w <- get_watch self ;;
  if (Z.of_nat idx =? Z.of_nat (length (w_links w)) - 1)
     && negb (Z.land (raw_mask event) (w_mask w) =? 0)
  then
    p <- lift (posixpath.join_star (w_path w)) ;;
    ret [Event_init event p]
  else
    p <- lift (posixpath.join_star (w_path w)) ;;
    ret [Event_init (semirawevent (IN_LINK_CHANGED G) 0 None (raw_wd event)) p].

(** [_Link.handle_event], as the callback a descriptor holds. *)
Definition Link_handle_event (cb : callback) (event : rawevent) : M (list Event) :=
  Watch_handle_event (cb_watch cb) event (cb_idx cb).

(** The [for] loop of [_Descriptor.handle_event] over [self.callbacks]. *)
Fixpoint run_callbacks (cbs : list (Z * option string * callback)) (event : rawevent)
    : M (list Event) :=
  match cbs with
  | [] => ret []
  | (m, n, c) :: rest =>
      es <- (if negb (Z.land (raw_mask event) m =? 0) && name_matches n (raw_name event)
             then Link_handle_event c event
             else ret []) ;;
      es' <- run_callbacks rest event ;;
      ret (es ++ es')
  end.

(** [_Descriptor.handle_event]. *)
Definition Descriptor_handle_event (d : Descriptor) (event : rawevent) : M (list Event) :=
  es <- run_callbacks (d_callbacks d) event ;;
  (if negb (Z.land (raw_mask event) (IN_IGNORED K) =? 0)
   then Watcher_removewatch d
   else ret tt) ;;;
  ret es.

(** [inotify.read(self.fd, bufsize)]: one more low-level read. *)
Definition low_read (bufsize : option Z) : M (list rawevent) :=
  fun s =>
    let s' := {| watchdescriptors := watchdescriptors s; paths := paths s;
                 buffer := buffer s; objects := objects s; next_id := next_id s;
                 lowreads := S (lowreads s) |} in
    match inotify_read W (lowreads s) bufsize with
    | inl e => (Exc (OSError e), s')
    | inr evts => (Val evts, s')
    end.

(** The two nested [for] loops of [Watcher.read]. *)
Fixpoint dispatch (evts : list rawevent) (events : list Event) : M (list Event) :=
  match evts with
  | [] => ret events
  | evt :: rest =>
      s <- get ;;
      match watchdescriptors s !! raw_wd evt with
      | None => raise (KeyError (raw_wd evt))
      | Some d =>
          es <- Descriptor_handle_event d evt ;;
          dispatch rest (events ++ es)
      end
  end.

(** [Watcher.read]; [None] is the bare [return] of the storing branch.
    Line 206 looks the global [NoFilesException] up; no statement of the
    module binds it. *)
Definition Watcher_read (block : bool) (bufsize : option Z) (store_events : bool)
    : M (option (list Event)) :=
  s <- get ;;
  match buffer s with
  | _ :: _ =>
      set_buffer [] ;;;
      ret (Some (buffer s))
  | [] =>
      let bufsize :=
        if negb block then Some 0
        else match bufsize with
             | Some 0 => None
             | _ => bufsize
             end in
      if Nat.eqb (size (watchdescriptors s)) 0
      then raise (NameError "NoFilesException")
      else
        evts <- low_read bufsize ;;
        events <- dispatch evts [] ;;
        if store_events
        then
          s <- get ;;
          set_buffer (buffer s ++ events) ;;;
          ret None
        else ret (Some events)
  end.

End Methods.

(** ** Notions used in the statements *)

Section Notions.

Context (K : Consts) (G : Globals) (W : World).

(** The mask of a leaf link and of a symlink link. *)
Definition leaf_mask (mask : Z) : Z :=
  Z.lor (Z.lor mask (IN_MOVE_SELF K)) (IN_DELETE_SELF K).

Definition link_mask : Z :=
  Z.lor (Z.lor (Z.lor (IN_MOVE K) (IN_DELETE K)) (IN_CREATE K)) (IN_ONLYDIR K).

(** The leaf link that [addleaf] appends, and the watch and the store
    after a [_Watch] for a path that is no symbolic link has been built on
    store [s]: one object more, one callback more. *)
Definition leaf_link (self : nat) (idx : nat) (mask : Z) (pth : string) (wd : Z) : Link :=
  {| l_idx := idx; l_watch := self; l_mask := leaf_mask mask; l_path := pth;
     l_name := None; l_wd := wd |}.

Definition resolved_watch (self : nat) (pth : string) (mask : Z) (wd : Z) (st : Z * Z)
    : Watch :=
  {| w_path := Watch_normpath pth; w_cwd := os_getcwd W; w_mask := mask;
     w_links := [leaf_link self 0 mask pth wd]; w_inode := Some st |}.

Definition resolved_store (s : Store) (pth : string) (mask : Z) (wd : Z) (st : Z * Z)
    : Store :=
  {| watchdescriptors :=
       register pth (leaf_mask mask) None {| cb_watch := next_id s; cb_idx := 0 |} wd
                (watchdescriptors s);
     paths := paths s;
     buffer := buffer s;
     objects := <[next_id s := resolved_watch (next_id s) pth mask wd st]> (objects s);
     next_id := S (next_id s);
     lowreads := lowreads s |}.

(** Handling events moves nothing but the registry of descriptors. *)
Definition registry_only (s s' : Store) : Prop :=
  paths s' = paths s /\ buffer s' = buffer s /\ objects s' = objects s /\
  next_id s' = next_id s /\ lowreads s' = lowreads s.

(** The buffer size [Watcher.read] passes on. *)
Definition read_bufsize (block : bool) (bufsize : option Z) : option Z :=
  if negb block then Some 0
  else match bufsize with
       | Some 0 => None
       | _ => bufsize
       end.

(** The store once one more low-level read has been made. *)
Definition after_low_read (s : Store) : Store :=
  {| watchdescriptors := watchdescriptors s; paths := paths s; buffer := buffer s;
     objects := objects s; next_id := next_id s; lowreads := S (lowreads s) |}.

(** What [_Watch.handle_event] yields for a watch [w] whose path joins to
    [p]: the event itself from the last link when the masks meet, the
    synthetic event otherwise. *)
Definition yielded (w : Watch) (p : string) (event : rawevent) (idx : nat) : Event :=
  if (Z.of_nat idx =? Z.of_nat (length (w_links w)) - 1)
     && negb (Z.land (raw_mask event) (w_mask w) =? 0)
  then Event_init event p
  else Event_init (semirawevent (IN_LINK_CHANGED G) 0 None (raw_wd event)) p.

(** The string holds a separator. *)
Fixpoint has_sep (s : string) : bool :=
  match s with
  | EmptyString => false
  | String c r => posixpath.is_sep c || has_sep r
  end.

(** A requested path that [_normpath] leaves as it is: no empty component
    (so no leading, doubled or trailing slash) and no [.] component. *)
Definition clean_path (pth : string) : bool :=
  forallb (fun p => negb (String.eqb p "" || String.eqb p ".")) (posixpath.str_split pth).

(** A kept component: not empty and without a separator. *)
Definition component (p : string) : Prop := p <> "" /\ has_sep p = false.

End Notions.

(** ** A small world for the examples *)

Definition str_in (p : string) (l : list string) : bool := existsb (String.eqb p) l.

(** [/tmp] holds a regular file [f], a symbolic link [l] to [f] and a
    symbolic link [d] to a missing entry; the working directory is [/tmp].
    The [n]-th low-level read answers the [n]-th batch of [script]. *)
Definition fs (script : list (list rawevent)) : World :=
  {| os_readlink := fun p =>
       if str_in p ["/tmp/l"; "l"; "./l"] then inr "f"
       else if str_in p ["/tmp/d"; "d"; "./d"] then inr "gone"
       else if str_in p ["/tmp/f"; "f"; "./f"; "/tmp"; "."; "/"] then inl EINVAL
       else inl ENOENT;
     os_stat := fun p =>
       if str_in p ["/tmp/f"; "f"; "./f"; "/tmp/l"; "l"; "./l"] then inr (2049, 11)
       else if str_in p ["/tmp"; "."] then inr (2049, 2)
       else if str_in p ["/"] then inr (2049, 1)
       else inl ENOENT;
     os_getcwd := "/tmp";
     inotify_add_watch := fun p _ =>
       if str_in p ["/tmp/f"; "f"; "./f"; "/tmp/l"; "l"; "./l"] then inr 1
       else if str_in p ["/tmp"; "."] then inr 2
       else if str_in p ["/"] then inr 3
       else inl ENOENT;
     inotify_read := fun n _ => inr (nth n script []) |}.

(** The globals after importing the module over Linux's table. *)
Definition linux_globals : Globals :=
  {| inotify_builtin_constants := 0xe700efff;
     IN_LINK_CHANGED := 0x100000000;
     constants' := table_set "IN_LINK_CHANGED" 0x100000000 linux_table |}.

Definition IN_MODIFY_linux : Z := 0x2.

(** Raw events on watch descriptor [wd]: a write, the deletion of the
    watched entry, and the kernel's notice that the watch is gone. *)
Definition modify_on (wd : Z) : rawevent :=
  {| raw_wd := wd; raw_mask := 0x2; raw_cookie := 0; raw_name := None |}.

Definition delete_self_on (wd : Z) : rawevent :=
  {| raw_wd := wd; raw_mask := 0x400; raw_cookie := 0; raw_name := None |}.

Definition ignored_on (wd : Z) : rawevent :=
  {| raw_wd := wd; raw_mask := 0x8000; raw_cookie := 0; raw_name := None |}.

(** The kernel's notice that its queue overflowed: it belongs to no watch
    descriptor. *)
Definition q_overflow : rawevent :=
  {| raw_wd := -1; raw_mask := 0x4000; raw_cookie := 0; raw_name := None |}.


(** The store of a [Watcher] that watches the regular file [/tmp/f] for
    writes. *)
Definition watching_f (script : list (list rawevent)) : Store :=
  snd (Watcher_add linux (fs script) 8 "/tmp/f" IN_MODIFY_linux Watcher_init).

(** The store of a [Watcher] that watched [/tmp/f], read with
    [store_events] the batch in which the file is deleted and the kernel
    drops the watch: one event waits in the buffer and the registry is
    empty. *)
Definition after_delete : Store :=
  snd (Watcher_read linux linux_globals (fs [[delete_self_on 1; ignored_on 1]])
         true None true (watching_f [[delete_self_on 1; ignored_on 1]])).

Example split_abs : posixpath.split "/tmp/l" = ("/tmp", "l").
Proof. reflexivity. Qed.

Example split_bare : posixpath.split "l" = ("", "l").
Proof. reflexivity. Qed.

Example split_root : posixpath.split "/l" = ("/", "l").
Proof. reflexivity. Qed.

Example split_slashes : posixpath.split "a//b/" = ("a//b", "").
Proof. reflexivity. Qed.

Example str_split_abs : posixpath.str_split "/tmp//f" = [""; "tmp"; ""; "f"].
Proof. reflexivity. Qed.

Example join_abs : posixpath.join "a" ["b"; "/c"; "d"] = "/c/d".
Proof. reflexivity. Qed.

Example import_linux : import_module 40 linux = Val linux_globals.
Proof. vm_compute. reflexivity. Qed.

(** Linux's table names every flag the getters ask for. *)
Example import_newwatcher_linux :
  import_newwatcher 40 linux event_props = Val linux_globals.
Proof. vm_compute. reflexivity. Qed.

(** A table without [IN_UNMOUNT] cannot be imported over. *)
Example import_newwatcher_missing_key :
  import_newwatcher 8
    {| IN_MOVE_SELF := 4; IN_DELETE_SELF := 4; IN_MOVE := 4; IN_DELETE := 4;
       IN_CREATE := 4; IN_ONLYDIR := 4; IN_IGNORED := 4;
       constants := [("IN_ACCESS", 4)] |} event_props
  = Exc (KeyError_str "IN_UNMOUNT").
Proof. vm_compute. reflexivity. Qed.

(** A collaborator's [decode_mask] for the examples: the names of the
    flags of Linux's table that the mask meets. *)
Definition linux_decode_mask (mask : Z) : list string :=
  map fst (List.filter (fun kv => negb (Z.land mask (snd kv) =? 0)) linux_table).

(** The same file system when the limit of kernel watches is reached, and
    when every entry vanishes right after the kernel accepted to watch it. *)
Definition fs_full : World :=
  {| os_readlink := os_readlink (fs []);
     os_stat := os_stat (fs []);
     os_getcwd := os_getcwd (fs []);
     inotify_add_watch := fun _ _ => inl ENOSPC;
     inotify_read := inotify_read (fs []) |}.

Definition fs_vanishing : World :=
  {| os_readlink := os_readlink (fs []);
     os_stat := fun _ => inl ENOENT;
     os_getcwd := os_getcwd (fs []);
     inotify_add_watch := inotify_add_watch (fs []);
     inotify_read := inotify_read (fs []) |}.

(** The directory [tmp] seen from the working directory [/]; nothing else
    is visible. *)
Definition fs_tmp (script : list (list rawevent)) : World :=
  {| os_readlink := fun p => if str_in p ["tmp"] then inl EINVAL else inl ENOENT;
     os_stat := fun p => if str_in p ["tmp"] then inr (2049, 2) else inl ENOENT;
     os_getcwd := "/";
     inotify_add_watch := fun p _ => if str_in p ["tmp"] then inr 2 else inl ENOENT;
     inotify_read := fun n _ => inr (nth n script []) |}.

(** An entry [name] is created in the directory watched as [wd]. *)
Definition create_on (wd : Z) (name : string) : rawevent :=
  {| raw_wd := wd; raw_mask := 0x100; raw_cookie := 0; raw_name := Some name |}.

(** ** Further functions of the module *)

(** [decode_mask] (lines 86 to 90).  [inotify_decode_mask] is the
    collaborator's [inotify.decode_mask]; the list it returns is extended
    in place. *)
Definition decode_mask (G : Globals) (inotify_decode_mask : Z -> list string)
    (mask : Z) : list string :=
  let d := inotify_decode_mask (Z.land mask (inotify_builtin_constants G)) in
  if negb (Z.land mask (IN_LINK_CHANGED G) =? 0) then d ++ ["IN_LINK_CHANGED"] else d.

(** [_Watch._nonrel]. *)
Definition Watch_nonrel (w : Watch) (pth : string) : string :=
  posixpath.join (w_cwd w) [pth].

(** The union of the masks of the callbacks of a descriptor. *)
Definition callbacks_mask (cbs : list (Z * option string * callback)) : Z :=
  fold_left Z.lor (map (fun t => fst (fst t)) cbs) 0.

(** A registry whose descriptors sit under their own key and carry the
    union of the masks of their callbacks. *)
Definition registry_ok (s : Store) : Prop :=
  forall wd d, watchdescriptors s !! wd = Some d ->
    d_wd d = wd /\ d_mask d = callbacks_mask (d_callbacks d).

(** An object store in which every link knows its place: [idx] is its
    position in the chain of the watch that owns it. *)
Definition links_indexed (s : Store) : Prop :=
  forall self w i l, objects s !! self = Some w -> w_links w !! i = Some l ->
    l_idx l = i /\ l_watch l = self.

(** A registration that has nothing to say about a raw event: the
    event's mask and the registered mask share no bit, or the registration
    is for the entry of one name and the event is not an event of an entry
    of that name. *)
Definition passes_by (event : rawevent) (t : Z * option string * callback) : Prop :=
  Z.land (raw_mask event) (fst (fst t)) = 0 \/
  exists x, snd (fst t) = Some x /\ raw_name event <> Some x.

(** No descriptor of [s'] is new with respect to [s]. *)
Definition registry_shrinks (s s' : Store) : Prop :=
  forall wd d, watchdescriptors s' !! wd = Some d -> watchdescriptors s !! wd = Some d.

(** What the constructor of [_Watch] may have done to store [s], whether
    it returned or raised: one object more, under the next identity, with no
    link or with one link of index 0; at most one callback more, for that
    link; nothing else. *)
Definition init_footprint (s s' : Store) : Prop :=
  paths s' = paths s /\ buffer s' = buffer s /\ lowreads s' = lowreads s /\
  next_id s' = S (next_id s) /\
  (watchdescriptors s' = watchdescriptors s \/
   exists pth mask name wd,
     watchdescriptors s'
     = register pth mask name {| cb_watch := next_id s; cb_idx := 0 |} wd
                (watchdescriptors s)) /\
  exists w,
    objects s' = <[next_id s := w]> (objects s) /\
    (w_links w = [] \/
     exists l, w_links w = [l] /\ l_idx l = 0%nat /\ l_watch l = next_id s).

(** The store once object [self], which was [w], has got one link more:
    the callback is registered under the descriptor [wd] that the kernel
    answered, and the link is appended to the chain. *)
Definition link_added (s : Store) (self : nat) (w : Watch) (mask : Z) (pth : string)
    (name : option string) (wd : Z) : Store :=
  {| watchdescriptors :=
       register pth mask name {| cb_watch := self; cb_idx := length (w_links w) |} wd
                (watchdescriptors s);
     paths := paths s;
     buffer := buffer s;
     objects :=
       <[self := {| w_path := w_path w; w_cwd := w_cwd w; w_mask := w_mask w;
                    w_links := w_links w
                               ++ [ {| l_idx := length (w_links w); l_watch := self;
                                       l_mask := mask; l_path := pth; l_name := name;
                                       l_wd := wd |} ];
                    w_inode := w_inode w |}]> (objects s);
     next_id := next_id s;
     lowreads := lowreads s |}.

(** The store once a new, empty [_Watch] has been allocated. *)
Definition allocated (W : World) (s : Store) (pth : string) (mask : Z) : Store :=
  snd (alloc {| w_path := Watch_normpath pth; w_cwd := os_getcwd W; w_mask := mask;
                w_links := []; w_inode := None |} s).

(** The new, empty [_Watch]. *)
Definition empty_watch (W : World) (pth : string) (mask : Z) : Watch :=
  {| w_path := Watch_normpath pth; w_cwd := os_getcwd W; w_mask := mask;
     w_links := []; w_inode := None |}.

(** * Properties *)

(** ** The synthetic flag computed at import time *)

Section LinkChangedBit.

Lemma shiftl_1_pow2 (k : Z) : 0 <= k -> Z.shiftl (2 ^ k) 1 = 2 ^ (k + 1).
Proof.
  intros Hk. rewrite Z.shiftl_mul_pow2 by lia.
  rewrite Z.pow_add_r by lia. reflexivity.
Qed.

(** From a power of two, the loop stops at the first power of two that is
    not below [u], as soon as the fuel covers the doublings left. *)
Lemma shift_until_pow2 (fuel : nat) :
  forall k u, 0 <= k -> (Z.to_nat (Z.log2_up u - k) < fuel)%nat ->
    shift_until fuel (2 ^ k) u = Some (2 ^ Z.max k (Z.log2_up u)).
Proof.
  induction fuel as [|fuel IH]; intros k u Hk Hfuel; [lia|].
  simpl. destruct (Z.ltb_spec (2 ^ k) u) as [Hlt|Hge].
  - assert (Hu : 0 < u) by (pose proof (Z.pow_pos_nonneg 2 k); lia).
    apply Z.log2_up_lt_pow2 in Hlt; [|exact Hu].
    rewrite shiftl_1_pow2 by exact Hk.
    rewrite IH by lia. f_equal. f_equal. lia.
  - f_equal. f_equal.
    destruct (Z.le_gt_cases u 0) as [Hu|Hu].
    + rewrite Z.log2_up_nonpos by exact Hu. lia.
    + apply Z.log2_up_le_pow2 in Hge; [lia|exact Hu].
Qed.

Lemma shift_until_from_one (fuel : nat) (u : Z) :
  (Z.to_nat (Z.log2_up u) < fuel)%nat ->
  shift_until fuel 1 u = Some (2 ^ Z.log2_up u).
Proof.
  intros Hfuel. change 1 with (2 ^ 0).
  rewrite shift_until_pow2; [|lia|rewrite Z.sub_0_r; exact Hfuel].
  f_equal. f_equal. pose proof (Z.log2_up_nonneg u). lia.
Qed.

(** More fuel never changes an answer. *)
Lemma shift_until_mono (fuel : nat) :
  forall l u r, shift_until fuel l u = Some r -> shift_until (S fuel) l u = Some r.
Proof.
  induction fuel as [|fuel IH]; intros l u r H; [discriminate|].
  simpl in H. change (shift_until (S (S fuel)) l u)
    with (if l <? u then shift_until (S fuel) (Z.shiftl l 1) u else Some l).
  destruct (l <? u); [apply IH; exact H|exact H].
Qed.

(** The loop is a function of [u] alone once it answers. *)
Lemma shift_until_value (fuel : nat) (u r : Z) :
  shift_until fuel 1 u = Some r -> r = 2 ^ Z.log2_up u.
Proof.
  intros H.
  assert (Hbig : shift_until (fuel + S (Z.to_nat (Z.log2_up u))) 1 u = Some r).
  { induction (S (Z.to_nat (Z.log2_up u))) as [|n IHn].
    - rewrite Nat.add_0_r. exact H.
    - rewrite Nat.add_succ_r. apply shift_until_mono. exact IHn. }
  rewrite shift_until_from_one in Hbig by lia. congruence.
Qed.

Lemma pow2_log2_up_ge (u : Z) : u <= 2 ^ Z.log2_up u.
Proof.
  destruct (Z.le_gt_cases u 1) as [Hu|Hu].
  - rewrite Z.log2_up_eqn0 by exact Hu. simpl. lia.
  - apply Z.log2_up_spec. lia.
Qed.


Lemma is_pow2_pow2 (k : Z) : 0 <= k -> is_pow2 (2 ^ k) = true.
Proof.
  intros Hk. unfold is_pow2. rewrite Z.log2_pow2 by exact Hk. apply Z.eqb_refl.
Qed.

Lemma not_pow2_lt (u : Z) : is_pow2 u = false -> u < 2 ^ Z.log2_up u.
Proof.
  intros Hnp. pose proof (pow2_log2_up_ge u) as Hge.
  destruct (Z.eq_dec u (2 ^ Z.log2_up u)) as [Heq|Hne]; [|lia].
  rewrite Heq in Hnp. rewrite is_pow2_pow2 in Hnp by apply Z.log2_up_nonneg.
  discriminate.
Qed.

(** A bit of a member of the list is a bit of the union. *)
Lemma fold_lor_testbit (xs : list Z) :
  forall x n, 0 <= n ->
    Z.testbit (fold_left Z.lor xs x) n
    = Z.testbit x n || existsb (fun v => Z.testbit v n) xs.
Proof.
  induction xs as [|y ys IH]; intros x n Hn; simpl.
  - rewrite orb_false_r. reflexivity.
  - rewrite IH by exact Hn. rewrite Z.lor_spec. rewrite orb_assoc. reflexivity.
Qed.

Lemma fold_lor_nonneg (xs : list Z) :
  forall x, 0 <= x -> Forall (fun v => 0 <= v) xs -> 0 <= fold_left Z.lor xs x.
Proof.
  induction xs as [|y ys IH]; intros x Hx Hxs; simpl; [exact Hx|].
  inversion Hxs; subst. apply IH; [|assumption].
  apply Z.lor_nonneg. split; assumption.
Qed.

Lemma reduce_or_nonneg (vs : list Z) (u : Z) :
  reduce_or vs = Val u -> Forall (fun v => 0 <= v) vs -> 0 <= u.
Proof.
  destruct vs as [|x xs]; simpl; intros H Hvs; [discriminate|].
  injection H as <-. inversion Hvs; subst. apply fold_lor_nonneg; assumption.
Qed.

Lemma reduce_or_member_bit (vs : list Z) (u v n : Z) :
  reduce_or vs = Val u -> In v vs -> 0 <= n ->
  Z.testbit v n = true -> Z.testbit u n = true.
Proof.
  destruct vs as [|x xs]; simpl; intros H Hin Hn Hbit; [discriminate|].
  injection H as <-. rewrite fold_lor_testbit by exact Hn.
  destruct Hin as [->|Hin].
  - rewrite Hbit. reflexivity.
  - apply orb_true_iff. right. apply existsb_exists. exists v. split; assumption.
Qed.

(** A power of two above a non-negative [u] shares no bit with it. *)
Lemma high_bit_clear (u k : Z) : 0 <= k -> 0 <= u -> u < 2 ^ k -> Z.testbit u k = false.
Proof.
  intros Hk Hu Hlt. destruct (Z.eq_dec u 0) as [->|Hne]; [apply Z.bits_0|].
  apply Z.bits_above_log2; [exact Hu|]. apply Z.log2_lt_pow2; lia.
Qed.

Lemma land_pow2_clear (k v : Z) : 0 <= k -> Z.testbit v k = false -> Z.land (2 ^ k) v = 0.
Proof.
  intros Hk Hbit. apply Z.bits_inj'. intros n Hn.
  rewrite Z.land_spec, Z.bits_0, Z.pow2_bits_eqb by exact Hk.
  destruct (Z.eqb_spec k n) as [->|Hne]; [rewrite Hbit|]; reflexivity.
Qed.

(** What [import_module] binds, when it returns. *)
Lemma import_module_inv (fuel : nat) (K : Consts) (g : Globals) :
  import_module fuel K = Val g ->
  reduce_or (map snd (constants K)) = Val (inotify_builtin_constants g) /\
  IN_LINK_CHANGED g = 2 ^ Z.log2_up (inotify_builtin_constants g) /\
  constants' g = table_set "IN_LINK_CHANGED" (IN_LINK_CHANGED g) (constants K).
Proof.
  unfold import_module. destruct (reduce_or (map snd (constants K))) as [u| |]; simpl;
    [|discriminate|discriminate].
  destruct (shift_until fuel 1 u) as [l|] eqn:Hl; [|discriminate].
  intros H. injection H as <-. simpl. apply shift_until_value in Hl.
  subst l. auto.
Qed.

(** The import returns as soon as the table is not empty and the fuel
    covers the doublings. *)
Lemma import_module_returns (K : Consts) :
  constants K <> [] ->
  exists fuel0, forall fuel, (fuel0 <= fuel)%nat -> exists g, import_module fuel K = Val g.
Proof.
  intros Hne. unfold import_module.
  destruct (constants K) as [|[k v] t]; [contradiction|]. simpl.
  set (u := fold_left Z.lor (map snd t) v).
  exists (S (Z.to_nat (Z.log2_up u))). intros fuel Hfuel.
  rewrite shift_until_from_one by lia. eexists. reflexivity.
Qed.

(** With flags that are not negative, the synthetic bit misses every flag
    of the table whenever it is above their union. *)
Lemma no_collision (fuel : nat) (K : Consts) (g : Globals) :
  import_module fuel K = Val g ->
  Forall (fun kv => 0 <= snd kv) (constants K) ->
  inotify_builtin_constants g < IN_LINK_CHANGED g ->
  forall v, In v (map snd (constants K)) -> Z.land (IN_LINK_CHANGED g) v = 0.
Proof.
  intros Himp Hpos Hlt v Hin.
  destruct (import_module_inv _ _ _ Himp) as (Hu & Hl & _).
  assert (Hvs : Forall (fun v => 0 <= v) (map snd (constants K))).
  { apply List.Forall_forall. intros x Hx. apply in_map_iff in Hx as ([a b] & <- & Hab).
    rewrite List.Forall_forall in Hpos. apply (Hpos (a, b)). exact Hab. }
  pose proof (reduce_or_nonneg _ _ Hu Hvs) as Hu0.
  pose proof (Z.log2_up_nonneg (inotify_builtin_constants g)) as Hk.
  rewrite Hl in *. apply land_pow2_clear; [exact Hk|].
  destruct (Z.testbit v (Z.log2_up (inotify_builtin_constants g))) eqn:Hbit; [|reflexivity].
  pose proof (reduce_or_member_bit _ _ _ _ Hu Hin Hk Hbit) as Hubit.
  rewrite high_bit_clear in Hubit by assumption. discriminate.
Qed.

End LinkChangedBit.

(** ** Chain resolution *)

Section Resolution.

Context (K : Consts) (W : World).

Lemma Watcher_createwatch_ok pth name mask cb wd s :
  inotify_add_watch W pth mask = inr wd ->
  Watcher_createwatch W pth name mask cb s
  = (Val wd, with_watchdescriptors (register pth mask name cb wd (watchdescriptors s)) s).
Proof.
  intros H. unfold Watcher_createwatch, bind, lift_os, get, register. rewrite H. simpl.
  destruct (watchdescriptors s !! wd); reflexivity.
Qed.

Lemma Watcher_createwatch_err pth name mask cb e s :
  inotify_add_watch W pth mask = inl e ->
  Watcher_createwatch W pth name mask cb s = (Exc (OSError e), s).
Proof.
  intros H. unfold Watcher_createwatch, bind, lift_os. rewrite H. reflexivity.
Qed.

(** [addleaf] on an object that exists, when the kernel accepts the watch
    and [stat] answers. *)
Lemma Watch_addleaf_ok self pth w wd st s :
  objects s !! self = Some w ->
  inotify_add_watch W pth (leaf_mask K (w_mask w)) = inr wd ->
  os_stat W pth = inr st ->
  Watch_addleaf K W self pth s
  = (Val tt,
     {| watchdescriptors :=
          register pth (leaf_mask K (w_mask w)) None
                   {| cb_watch := self; cb_idx := length (w_links w) |} wd
                   (watchdescriptors s);
        paths := paths s;
        buffer := buffer s;
        objects :=
          <[self := {| w_path := w_path w; w_cwd := w_cwd w; w_mask := w_mask w;
                       w_links := w_links w
                                  ++ [leaf_link K self (length (w_links w)) (w_mask w) pth wd];
                       w_inode := Some st |}]> (objects s);
        next_id := next_id s;
        lowreads := lowreads s |}).
Proof.
  intros Hw Hwd Hst.
  unfold Watch_addleaf, Link_init, Watch_links_append, bind, get_watch, set_watch, ret.
  rewrite Hw. fold (leaf_mask K (w_mask w)).
  rewrite (Watcher_createwatch_ok _ _ _ _ _ _ Hwd). simpl.
  rewrite Hw. simpl. rewrite Hst. simpl.
  rewrite lookup_insert_eq. simpl.
  unfold with_objects. simpl. rewrite insert_insert_eq. reflexivity.
Qed.

(** [addleaf] returns only in that way. *)
Lemma Watch_addleaf_inv self pth w s s' :
  objects s !! self = Some w ->
  Watch_addleaf K W self pth s = (Val tt, s') ->
  exists wd st,
    inotify_add_watch W pth (leaf_mask K (w_mask w)) = inr wd /\
    os_stat W pth = inr st /\
    Watch_addleaf K W self pth s = (Val tt, s') /\
    objects s' !! self
    = Some {| w_path := w_path w; w_cwd := w_cwd w; w_mask := w_mask w;
              w_links := w_links w
                         ++ [leaf_link K self (length (w_links w)) (w_mask w) pth wd];
              w_inode := Some st |}.
Proof.
  intros Hw Hrun.
  destruct (inotify_add_watch W pth (leaf_mask K (w_mask w))) as [e|wd] eqn:Hwd.
  - exfalso. revert Hrun.
    unfold Watch_addleaf, Link_init, bind, get_watch. rewrite Hw.
    fold (leaf_mask K (w_mask w)). rewrite (Watcher_createwatch_err _ _ _ _ _ _ Hwd).
    discriminate.
  - destruct (os_stat W pth) as [e|st] eqn:Hst.
    + exfalso. revert Hrun.
      unfold Watch_addleaf, Link_init, Watch_links_append, bind, get_watch, set_watch, ret.
      rewrite Hw. fold (leaf_mask K (w_mask w)).
      rewrite (Watcher_createwatch_ok _ _ _ _ _ _ Hwd). simpl.
      rewrite Hw. simpl. rewrite Hst. discriminate.
    + exists wd, st. repeat split; [exact Hrun|].
      rewrite (Watch_addleaf_ok _ _ _ _ _ _ Hw Hwd Hst) in Hrun.
      injection Hrun as <-. simpl. apply lookup_insert_eq.
Qed.

(** One turn of the loop never asks for another: [os.join] raises after
    every link that was read.  A turn that breaks or returns has left the
    store as it was. *)
Lemma Watch_add_step_cases self pth linkdepth s r s' :
  Watch_add_step K W self pth linkdepth s = (r, s') ->
  (r = Val (Break pth) /\ s' = s)
  \/ (r = Val Return /\ s' = s /\ linkdepth <> 0%nat)
  \/ (exists e, r = Exc e)
  \/ r = Stuck.
Proof.
  unfold Watch_add_step, try_except_OSError, bind, lift_os, os_join, raise, ret.
  destruct (os_readlink W pth) as [e|link]; simpl.
  - destruct (errno_eqb e EINVAL); [intros [= <- <-]; auto|].
    destruct (errno_eqb e ENOENT || errno_eqb e ENOTDIR).
    + destruct (Nat.eqb_spec linkdepth 0); intros [= <- <-]; eauto 6.
    + intros [= <- <-]; eauto 6.
  - unfold Watch_addlink. destruct (posixpath.split pth) as [dir name].
    unfold bind, get_watch, Link_init. destruct (objects s !! self) as [w|]; simpl.
    + fold (link_mask K). unfold bind.
      destruct (inotify_add_watch W dir (link_mask K)) as [e|wd] eqn:Hwd.
      * rewrite (Watcher_createwatch_err _ _ _ _ _ _ Hwd). simpl.
        destruct (errno_eqb e EINVAL); [intros [= <- <-]; auto|].
        destruct (errno_eqb e ENOENT || errno_eqb e ENOTDIR).
        -- destruct (Nat.eqb_spec linkdepth 0); intros [= <- <-]; eauto 6.
        -- intros [= <- <-]; eauto 6.
      * rewrite (Watcher_createwatch_ok _ _ _ _ _ _ Hwd). simpl.
        unfold Watch_links_append, bind, get_watch, set_watch. simpl.
        destruct (objects s !! self); simpl; intros [= <- <-]; eauto 6.
    + intros [= <- <-]; auto.
Qed.

(** So one unit of fuel is as good as any. *)
Lemma Watch_add_loop_fuel fuel self pth linkdepth s :
  Watch_add_loop K W (S fuel) self pth linkdepth s
  = Watch_add_loop K W 1 self pth linkdepth s.
Proof.
  simpl. unfold bind.
  destruct (Watch_add_step K W self pth linkdepth s) as [r s'] eqn:Hstep.
  destruct (Watch_add_step_cases _ _ _ _ _ _ Hstep)
    as [[-> ->]|[(-> & -> & _)|[[e ->]| ->]]]; reflexivity.
Qed.

(** A path that is no symbolic link resolves to a single leaf link. *)
Lemma Watch_init_plain fuel pth mask wd st s :
  os_readlink W pth = inl EINVAL ->
  inotify_add_watch W pth (leaf_mask K mask) = inr wd ->
  os_stat W pth = inr st ->
  Watch_init K W (S fuel) pth mask s = (Val (next_id s), resolved_store K W s pth mask wd st).
Proof.
  intros Hrl Hwd Hst. unfold Watch_init, Watch_add, bind, alloc.
  rewrite Watch_add_loop_fuel. simpl.
  unfold bind, Watch_add_step, try_except_OSError, bind, lift_os. rewrite Hrl. simpl.
  erewrite Watch_addleaf_ok; [| apply lookup_insert_eq | exact Hwd | exact Hst ].
  simpl. unfold resolved_store, resolved_watch. rewrite insert_insert_eq. reflexivity.
Qed.

(** And the constructor returns in no other way: a [_Watch] that was
    built has exactly one link, the leaf. *)
Lemma Watch_init_inv fuel pth mask self s s' :
  Watch_init K W fuel pth mask s = (Val self, s') ->
  self = next_id s /\
  exists wd st,
    inotify_add_watch W pth (leaf_mask K mask) = inr wd /\
    os_stat W pth = inr st /\
    s' = resolved_store K W s pth mask wd st.
Proof.
  unfold Watch_init, Watch_add, bind, alloc.
  destruct fuel as [|fuel]; [discriminate|].
  rewrite Watch_add_loop_fuel. simpl. unfold bind.
  match goal with |- context [Watch_add_step K W ?a ?b ?c ?d] =>
    destruct (Watch_add_step K W a b c d) as [r s1] eqn:Hstep end.
  destruct (Watch_add_step_cases _ _ _ _ _ _ Hstep)
    as [[-> ->]|[(-> & -> & Hd)|[[e ->]| ->]]]; try discriminate; [|congruence].
  match goal with |- context [Watch_addleaf K W ?a ?b ?c] =>
    destruct (Watch_addleaf K W a b c) as [[[]| |] s2] eqn:Hleaf end; try discriminate.
  intros [= <- <-]. split; [reflexivity|].
  eapply Watch_addleaf_inv in Hleaf; [|apply lookup_insert_eq].
  destruct Hleaf as (wd & st & Hwd & Hst & Hrun & _). simpl in Hwd.
  exists wd, st. repeat split; try assumption.
  erewrite Watch_addleaf_ok in Hrun; [| apply lookup_insert_eq | exact Hwd | exact Hst ].
  injection Hrun as <-. simpl. unfold resolved_store, resolved_watch.
  rewrite insert_insert_eq. reflexivity.
Qed.

End Resolution.

(** ** The registry after a registration *)

Lemma register_lookup pth mask name cb wd (m : gmap Z Descriptor) :
  register pth mask name cb wd m !! wd
  = Some (Descriptor_add_callback pth mask name cb
            (default (Descriptor_init wd) (m !! wd))).
Proof.
  unfold register. rewrite lookup_alter_eq.
  destruct (m !! wd) as [d|] eqn:Hd; simpl.
  - rewrite Hd. reflexivity.
  - rewrite lookup_insert_eq. reflexivity.
Qed.

Lemma register_last_callback pth mask name cb wd (m : gmap Z Descriptor) :
  exists d, register pth mask name cb wd m !! wd = Some d /\
            last (d_callbacks d) = Some (mask, name, cb).
Proof.
  eexists. split; [apply register_lookup|]. simpl. apply last_snoc.
Qed.

Lemma register_size pth mask name cb wd (m : gmap Z Descriptor) :
  size (register pth mask name cb wd m) <> 0%nat.
Proof.
  apply map_size_non_empty_iff. intros Hempty.
  pose proof (register_lookup pth mask name cb wd m) as Hl.
  rewrite Hempty, lookup_empty in Hl. discriminate.
Qed.

(** ** [Watcher.add] *)

Section Add.

Context (K : Consts) (W : World).

(** A first [add] of a path is the constructor followed by the entry. *)
Lemma Watcher_add_fresh fuel pth mask s :
  paths s !! pth = None ->
  Watcher_add K W fuel pth mask s
  = match Watch_init K W fuel pth mask s with
    | (Val new, s1) => (Val new, with_paths (<[pth := new]> (paths s1)) s1)
    | (Exc e, s1) => (Exc e, s1)
    | (Stuck, s1) => (Stuck, s1)
    end.
Proof.
  intros Hp. unfold Watcher_add, bind, get, set_paths, ret. rewrite Hp. simpl.
  destruct (Watch_init K W fuel pth mask s) as [[new| |] s1]; reflexivity.
Qed.

(** An [add] of a path that has an entry raises at the call of
    [update_mask], before the constructor runs: the store is as it was. *)
Lemma Watcher_add_again fuel pth mask old s :
  paths s !! pth = Some old ->
  Watcher_add K W fuel pth mask s
  = (Exc (AttributeError "'_Watch' object has no attribute 'update_mask'"), s).
Proof.
  intros Hp. unfold Watcher_add, bind, get, raise. rewrite Hp. reflexivity.
Qed.

(** A path whose entry is a symbolic link in a directory the kernel
    accepts to watch: the constructor raises [AttributeError] after it has
    registered the first link, whatever the link points to. *)
Lemma Watch_init_symlink_raises fuel pth mask link wd s :
  os_readlink W pth = inr link ->
  inotify_add_watch W (fst (posixpath.split pth)) (link_mask K) = inr wd ->
  fst (Watch_init K W (S fuel) pth mask s)
  = Exc (AttributeError "module 'os' has no attribute 'join'").
Proof.
  intros Hrl Hwd. unfold Watch_init, Watch_add, bind, alloc.
  rewrite Watch_add_loop_fuel. simpl.
  unfold bind, Watch_add_step, try_except_OSError, bind, lift_os. rewrite Hrl. simpl.
  unfold Watch_addlink. destruct (posixpath.split pth) as [dir name]. simpl in Hwd.
  unfold bind, get_watch, Link_init. simpl. rewrite lookup_insert_eq. simpl.
  fold (link_mask K). unfold bind.
  rewrite (Watcher_createwatch_ok _ _ _ _ _ _ _ Hwd). simpl.
  unfold Watch_links_append, bind, get_watch, set_watch. simpl.
  rewrite lookup_insert_eq. reflexivity.
Qed.

(** Whatever the kernel says about the directory, no [_Watch] comes out of
    a path whose entry is a symbolic link unless [add_watch] answers
    [EINVAL] for the directory. *)
Lemma Watch_init_symlink_no_chain fuel pth mask link self s s' :
  os_readlink W pth = inr link ->
  inotify_add_watch W (fst (posixpath.split pth)) (link_mask K) <> inl EINVAL ->
  Watch_init K W fuel pth mask s <> (Val self, s').
Proof.
  intros Hrl Hne Hrun. revert Hrun. unfold Watch_init, Watch_add, bind, alloc.
  destruct fuel as [|fuel]; [discriminate|].
  rewrite Watch_add_loop_fuel. simpl.
  unfold bind, Watch_add_step, try_except_OSError, bind, lift_os. rewrite Hrl. simpl.
  unfold Watch_addlink. destruct (posixpath.split pth) as [dir name]. simpl in Hne.
  unfold bind, get_watch, Link_init. simpl. rewrite lookup_insert_eq. simpl.
  fold (link_mask K). unfold bind.
  destruct (inotify_add_watch W dir (link_mask K)) as [e|wd] eqn:Hwd.
  - rewrite (Watcher_createwatch_err _ _ _ _ _ _ _ Hwd). simpl.
    destruct e; simpl; try discriminate. congruence.
  - rewrite (Watcher_createwatch_ok _ _ _ _ _ _ _ Hwd). simpl.
    unfold Watch_links_append, bind, get_watch, set_watch. simpl.
    rewrite lookup_insert_eq. discriminate.
Qed.

End Add.

(** ** Paths: [_normpath] followed by [path.join] *)

Section Paths.

Import posixpath.

Lemma string_app_assoc (a b c : string) : (a +:+ b) +:+ c = a +:+ (b +:+ c).
Proof.
  induction a as [|x a IH]; [reflexivity|].
  change (String x ((a +:+ b) +:+ c) = String x (a +:+ (b +:+ c))).
  rewrite IH. reflexivity.
Qed.

Lemma str_split_not_nil (s : string) : str_split s <> [].
Proof.
  destruct s as [|c r]; simpl; [discriminate|].
  destruct (is_sep c); [discriminate|]. destruct (str_split r); discriminate.
Qed.

Lemma str_split_no_sep (s : string) : List.Forall (fun p => has_sep p = false) (str_split s).
Proof.
  induction s as [|c r IH]; simpl.
  - constructor; [reflexivity|constructor].
  - destruct (is_sep c) eqn:Hc.
    + constructor; [reflexivity|exact IH].
    + destruct (str_split r) as [|h t]; inversion IH; subst;
        constructor; simpl; rewrite ?Hc; auto.
Qed.

(** Joining what [split] gave with the separator gives the string back. *)
Lemma concat_str_split (s : string) : String.concat "/" (str_split s) = s.
Proof.
  induction s as [|c r IH]; [reflexivity|]. simpl str_split.
  unfold is_sep. destruct (Ascii.eqb_spec c "/"%char) as [->|Hc].
  - pose proof (str_split_not_nil r) as Hne.
    destruct (str_split r) as [|h t] eqn:Hr; [contradiction|].
    change (String.concat "/" ("" :: h :: t)) with ("/" +:+ String.concat "/" (h :: t)).
    rewrite IH. reflexivity.
  - pose proof (str_split_not_nil r) as Hne.
    destruct (str_split r) as [|h t] eqn:Hr; [contradiction|].
    destruct t as [|h' t'].
    + simpl in *. rewrite IH. reflexivity.
    + change (String.concat "/" (String c h :: h' :: t'))
        with (String c (h +:+ "/" +:+ String.concat "/" (h' :: t'))).
      change (String.concat "/" (h :: h' :: t'))
        with (h +:+ "/" +:+ String.concat "/" (h' :: t')) in IH.
      rewrite IH. reflexivity.
Qed.

Lemma startswith_no_sep (b : string) : has_sep b = false -> startswith_sep b = false.
Proof.
  destruct b as [|c r]; simpl; [reflexivity|]. intros H.
  apply orb_false_iff in H. tauto.
Qed.

Lemma endswith_no_sep (b : string) : has_sep b = false -> endswith_sep b = false.
Proof.
  induction b as [|c r IH]; simpl; [reflexivity|]. intros H.
  apply orb_false_iff in H as [Hc Hr]. destruct r; [exact Hc|apply IH; exact Hr].
Qed.

Lemma string_app_not_empty (a b : string) : b <> "" -> a +:+ b <> "".
Proof. intros Hb. destruct a; simpl; [exact Hb|discriminate]. Qed.

Lemma endswith_cons (c : ascii) (s : string) :
  s <> "" -> endswith_sep (String c s) = endswith_sep s.
Proof. destruct s; [contradiction|reflexivity]. Qed.

Lemma endswith_app (a b : string) : b <> "" -> endswith_sep (a +:+ b) = endswith_sep b.
Proof.
  intros Hb. induction a as [|c r IH]; [reflexivity|].
  change (String c r +:+ b) with (String c (r +:+ b)).
  rewrite endswith_cons by (apply string_app_not_empty; exact Hb). exact IH.
Qed.

Lemma join2_component (acc b : string) :
  acc <> "" -> endswith_sep acc = false -> component b ->
  join2 acc b = acc +:+ "/" +:+ b.
Proof.
  intros Hacc Hend [Hb Hsep]. unfold join2.
  rewrite (startswith_no_sep _ Hsep), Hend.
  destruct (String.eqb_spec acc ""); [contradiction|]. reflexivity.
Qed.

Lemma fold_join2_components (p : list string) :
  forall acc, acc <> "" -> endswith_sep acc = false -> List.Forall component p ->
    fold_left join2 p acc = String.concat "/" (acc :: p).
Proof.
  induction p as [|b p IH]; intros acc Hacc Hend Hp; [reflexivity|].
  inversion Hp as [|? ? Hb Hrest]; subst. simpl fold_left.
  rewrite (join2_component _ _ Hacc Hend Hb).
  destruct Hb as [Hb Hsep].
  rewrite IH; [| | |exact Hrest].
  - change (String.concat "/" (acc :: b :: p))
      with (acc +:+ "/" +:+ String.concat "/" (b :: p)).
    destruct p as [|b' p'].
    + reflexivity.
    + change (String.concat "/" ((acc +:+ "/" +:+ b) :: b' :: p'))
        with ((acc +:+ "/" +:+ b) +:+ "/" +:+ String.concat "/" (b' :: p')).
      change (String.concat "/" (b :: b' :: p'))
        with (b +:+ "/" +:+ String.concat "/" (b' :: p')).
      rewrite !string_app_assoc. reflexivity.
  - apply string_app_not_empty. apply string_app_not_empty. exact Hb.
  - rewrite endswith_app by (apply string_app_not_empty; exact Hb).
    rewrite endswith_app by exact Hb. apply endswith_no_sep. exact Hsep.
Qed.

Lemma Watch_normpath_components (pth : string) : List.Forall component (Watch_normpath pth).
Proof.
  unfold Watch_normpath. pose proof (str_split_no_sep pth) as Hns.
  induction (str_split pth) as [|h t IH]; simpl; [constructor|].
  inversion Hns; subst.
  destruct (String.eqb_spec h ""); simpl; [apply IH; assumption|].
  destruct (String.eqb h "."); simpl; [apply IH; assumption|].
  constructor; [split; assumption|apply IH; assumption].
Qed.

(** What the event path of a watch is: the kept components, joined. *)
Lemma join_star_normpath (pth : string) :
  Watch_normpath pth <> [] ->
  join_star (Watch_normpath pth) = Val (String.concat "/" (Watch_normpath pth)).
Proof.
  intros Hne. pose proof (Watch_normpath_components pth) as Hc.
  destruct (Watch_normpath pth) as [|a p]; [contradiction|].
  inversion Hc as [|? ? [Ha Hsep] Hp]; subst. simpl. f_equal. unfold join.
  apply fold_join2_components; [exact Ha|apply endswith_no_sep; exact Hsep|exact Hp].
Qed.

Lemma Watch_normpath_clean (pth : string) :
  clean_path pth = true -> Watch_normpath pth = str_split pth.
Proof.
  unfold clean_path, Watch_normpath. induction (str_split pth) as [|h t IH]; simpl;
    [reflexivity|].
  intros H. apply andb_true_iff in H as [Hh Ht]. rewrite Hh. f_equal. apply IH. exact Ht.
Qed.

(** On a clean path the event path is the requested path itself. *)
Lemma join_star_clean (pth : string) :
  clean_path pth = true -> join_star (Watch_normpath pth) = Val pth.
Proof.
  intros Hc. rewrite join_star_normpath.
  - rewrite (Watch_normpath_clean _ Hc), concat_str_split. reflexivity.
  - rewrite (Watch_normpath_clean _ Hc). apply str_split_not_nil.
Qed.

End Paths.

(** ** Event handling and [Watcher.read] *)

Section Reading.

Context (K : Consts) (G : Globals) (W : World).

Lemma registry_only_refl s : registry_only s s.
Proof. repeat split. Qed.

Lemma registry_only_trans s1 s2 s3 :
  registry_only s1 s2 -> registry_only s2 s3 -> registry_only s1 s3.
Proof.
  intros (?&?&?&?&?) (?&?&?&?&?). repeat split; congruence.
Qed.

Lemma Watch_handle_event_joined self w p event idx s :
  objects s !! self = Some w ->
  posixpath.join_star (w_path w) = Val p ->
  Watch_handle_event G self event idx s = (Val [yielded G w p event idx], s).
Proof.
  intros Hw Hp. unfold Watch_handle_event, yielded, bind, get_watch, lift, ret.
  rewrite Hw, Hp. destruct (_ && _); reflexivity.
Qed.

Lemma Watch_handle_event_no_path self w event idx s :
  objects s !! self = Some w ->
  w_path w = [] ->
  Watch_handle_event G self event idx s
  = (Exc (TypeError "join() missing 1 required positional argument: 'a'"), s).
Proof.
  intros Hw Hp. unfold Watch_handle_event, bind, get_watch, lift.
  rewrite Hw, Hp. destruct (_ && _); reflexivity.
Qed.

Lemma Watch_handle_event_store self event idx s :
  snd (Watch_handle_event G self event idx s) = s.
Proof.
  unfold Watch_handle_event, bind, get_watch, lift, ret.
  destruct (objects s !! self) as [w|]; [|reflexivity].
  destruct (_ && _); destruct (posixpath.join_star (w_path w)); reflexivity.
Qed.

Lemma run_callbacks_store cbs event s : snd (run_callbacks G cbs event s) = s.
Proof.
  induction cbs as [|[[m n] c] rest IH]; [reflexivity|].
  simpl. unfold bind at 1.
  destruct (negb (Z.land (raw_mask event) m =? 0) && name_matches n (raw_name event)).
  - unfold Link_handle_event.
    pose proof (Watch_handle_event_store (cb_watch c) event (cb_idx c) s) as Hs.
    destruct (Watch_handle_event G (cb_watch c) event (cb_idx c) s) as [[es| |] s1];
      simpl in Hs; subst s1; try reflexivity.
    unfold bind. destruct (run_callbacks G rest event s) as [[es'| |] s2];
      simpl in IH; subst s2; reflexivity.
  - unfold ret at 1. unfold bind.
    destruct (run_callbacks G rest event s) as [[es'| |] s2];
      simpl in IH; subst s2; reflexivity.
Qed.

Lemma Watcher_removewatch_frame d s : registry_only s (snd (Watcher_removewatch d s)).
Proof.
  unfold Watcher_removewatch, bind, get, raise, set_watchdescriptors.
  destruct (watchdescriptors s !! d_wd d); simpl; repeat split.
Qed.

Lemma Descriptor_handle_event_frame d event s :
  registry_only s (snd (Descriptor_handle_event K G d event s)).
Proof.
  unfold Descriptor_handle_event, bind.
  pose proof (run_callbacks_store (d_callbacks d) event s) as Hs.
  destruct (run_callbacks G (d_callbacks d) event s) as [[es| |] s1];
    simpl in Hs; subst s1; try apply registry_only_refl.
  destruct (negb (Z.land (raw_mask event) (IN_IGNORED K) =? 0)).
  - pose proof (Watcher_removewatch_frame d s) as Hf.
    destruct (Watcher_removewatch d s) as [[[]| |] s1]; exact Hf.
  - apply registry_only_refl.
Qed.

Lemma dispatch_frame evts :
  forall events s, registry_only s (snd (dispatch K G evts events s)).
Proof.
  induction evts as [|evt rest IH]; intros events s; [apply registry_only_refl|].
  simpl. unfold bind, get.
  destruct (watchdescriptors s !! raw_wd evt) as [d|]; [|apply registry_only_refl].
  pose proof (Descriptor_handle_event_frame d evt s) as Hf.
  destruct (Descriptor_handle_event K G d evt s) as [[es| |] s1]; simpl in Hf;
    try exact Hf.
  eapply registry_only_trans; [exact Hf|apply IH].
Qed.

(** A buffer that holds events is handed over and emptied; nothing else
    is looked at, nothing else moves. *)
Lemma Watcher_read_drain block bufsize store_events s :
  buffer s <> [] ->
  Watcher_read K G W block bufsize store_events s
  = (Val (Some (buffer s)), with_buffer [] s).
Proof.
  intros Hb. unfold Watcher_read, bind, get, set_buffer, ret.
  destruct (buffer s); [contradiction|reflexivity].
Qed.

(** With an empty buffer and an empty registry, [read] raises at once. *)
Lemma Watcher_read_no_files block bufsize store_events s :
  buffer s = [] ->
  size (watchdescriptors s) = 0%nat ->
  Watcher_read K G W block bufsize store_events s
  = (Exc (NameError "NoFilesException"), s).
Proof.
  intros Hb Hsz. unfold Watcher_read, bind, get, raise. rewrite Hb, Hsz. reflexivity.
Qed.

(** With an empty buffer and a registry that is not empty, [read] is one
    low-level read followed by the dispatch of what it answered. *)
Lemma Watcher_read_unfold block bufsize store_events s :
  buffer s = [] ->
  size (watchdescriptors s) <> 0%nat ->
  Watcher_read K G W block bufsize store_events s
  = match inotify_read W (lowreads s) (read_bufsize block bufsize) with
    | inl e => (Exc (OSError e), after_low_read s)
    | inr evts =>
        match dispatch K G evts [] (after_low_read s) with
        | (Val events, s') =>
            if store_events
            then (Val None, with_buffer (buffer s' ++ events) s')
            else (Val (Some events), s')
        | (Exc e, s') => (Exc e, s')
        | (Stuck, s') => (Stuck, s')
        end
    end.
Proof.
  intros Hb Hsz. unfold Watcher_read, bind, get. rewrite Hb.
  destruct (Nat.eqb_spec (size (watchdescriptors s)) 0) as [Heq|_]; [contradiction|].
  fold (read_bufsize block bufsize). unfold low_read. fold (after_low_read s).
  destruct (inotify_read W (lowreads s) (read_bufsize block bufsize)) as [e|evts];
    [reflexivity|].
  destruct (dispatch K G evts [] (after_low_read s)) as [[events| |] s'];
    try reflexivity.
  destruct store_events; reflexivity.
Qed.

Lemma Watcher_read_low block bufsize store_events s :
  buffer s = [] ->
  size (watchdescriptors s) <> 0%nat ->
  lowreads (snd (Watcher_read K G W block bufsize store_events s)) = S (lowreads s).
Proof.
  intros Hb Hsz. rewrite Watcher_read_unfold by assumption.
  destruct (inotify_read W (lowreads s) (read_bufsize block bufsize)) as [e|evts];
    [reflexivity|].
  pose proof (dispatch_frame evts [] (after_low_read s)) as (_ & _ & _ & _ & Hl).
  destruct (dispatch K G evts [] (after_low_read s)) as [[events| |] s'];
    simpl in Hl; try exact Hl.
  destruct store_events; exact Hl.
Qed.

End Reading.

(** * The claims *)

(** ** C7: the value of the synthetic flag *)




(** ** C8: the mask of the leaf link *)

(** C8: when the constructor of [_Watch] returns, the last link of the new
    watch is a leaf (no name filter) whose mask is the requested mask with
    [IN_MOVE_SELF] and [IN_DELETE_SELF] added; this is the mask the kernel
    was asked to watch with and the mask of the callback that was
    registered last on the link's descriptor. *)
Theorem C8_leaf_mask (K : Consts) (W : World) (fuel : nat) (pth : string) (mask : Z)
    (s s' : Store) (self : nat) :
  Watch_init K W fuel pth mask s = (Val self, s') ->
  exists w leaf d,
    objects s' !! self = Some w /\
    last (w_links w) = Some leaf /\
    l_name leaf = None /\
    l_mask leaf = Z.lor (Z.lor mask (IN_MOVE_SELF K)) (IN_DELETE_SELF K) /\
    inotify_add_watch W (l_path leaf) (l_mask leaf) = inr (l_wd leaf) /\
    watchdescriptors s' !! l_wd leaf = Some d /\
    last (d_callbacks d)
    = Some (Z.lor (Z.lor mask (IN_MOVE_SELF K)) (IN_DELETE_SELF K), None,
            {| cb_watch := self; cb_idx := l_idx leaf |}).
Proof.
  intros Hrun. apply Watch_init_inv in Hrun as (-> & wd & st & Hwd & Hst & ->).
  destruct (register_last_callback pth (leaf_mask K mask) None
              {| cb_watch := next_id s; cb_idx := 0 |} wd (watchdescriptors s))
    as (d & Hd & Hlast).
  exists (resolved_watch K W (next_id s) pth mask wd st),
         (leaf_link K (next_id s) 0 mask pth wd), d.
  simpl. rewrite lookup_insert_eq. repeat split; assumption.
Qed.

(** A new [Watcher] and the regular file [/tmp/f], watched for writes. *)
Lemma C8_leaf_mask_witness :
  Watch_init linux (fs []) 1 "/tmp/f" 0x2 Watcher_init
  = (Val 0%nat, resolved_store linux (fs []) Watcher_init "/tmp/f" 0x2 1 (2049, 11)) /\
  exists w leaf d,
    objects (resolved_store linux (fs []) Watcher_init "/tmp/f" 0x2 1 (2049, 11)) !! 0%nat
    = Some w /\
    last (w_links w) = Some leaf /\
    l_name leaf = None /\
    l_mask leaf = Z.lor (Z.lor 0x2 (IN_MOVE_SELF linux)) (IN_DELETE_SELF linux) /\
    inotify_add_watch (fs []) (l_path leaf) (l_mask leaf) = inr (l_wd leaf) /\
    watchdescriptors (resolved_store linux (fs []) Watcher_init "/tmp/f" 0x2 1 (2049, 11))
      !! l_wd leaf = Some d /\
    last (d_callbacks d)
    = Some (Z.lor (Z.lor 0x2 (IN_MOVE_SELF linux)) (IN_DELETE_SELF linux), None,
            {| cb_watch := 0%nat; cb_idx := l_idx leaf |}).
Proof.
  assert (H : Watch_init linux (fs []) 1 "/tmp/f" 0x2 Watcher_init
              = (Val 0%nat,
                 resolved_store linux (fs []) Watcher_init "/tmp/f" 0x2 1 (2049, 11))).
  { vm_compute. reflexivity. }
  split; [exact H|].
  exact (C8_leaf_mask linux (fs []) 1 "/tmp/f" 0x2 Watcher_init _ 0%nat H).
Defined.

(** ** C1 and C3: paths through symbolic links *)

(** What happens at a path with no entry (the handler reaches line 257,
    whose [raise] names a class that is bound nowhere), and what the handler
    does at a deeper turn of the loop, were one ever reached. *)
Lemma Watch_init_missing (K : Consts) (W : World) fuel pth mask s :
  os_readlink W pth = inl ENOENT ->
  fst (Watch_init K W (S fuel) pth mask s)
  = Exc (NameError "InotifyWatcherException").
Proof.
  intros Hrl. unfold Watch_init, Watch_add, bind, alloc.
  rewrite Watch_add_loop_fuel. simpl.
  unfold bind, Watch_add_step, try_except_OSError, bind, lift_os. rewrite Hrl.
  reflexivity.
Qed.

Lemma Watch_add_step_dangling (K : Consts) (W : World) self pth linkdepth s :
  os_readlink W pth = inl ENOENT ->
  Watch_add_step K W self pth (S linkdepth) s = (Val Return, s).
Proof.
  intros Hrl. unfold Watch_add_step, try_except_OSError, bind, lift_os. rewrite Hrl.
  reflexivity.
Qed.

(** C1, where the code departs from the claim.  [/tmp/l] is a symbolic
    link to the regular file [/tmp/f]: one symlink step, so the claim
    promises a chain of two links.  [_Watch.add] registers the link for
    [l] in [/tmp] and then evaluates [os.join]: [AttributeError] leaves
    [Watcher.add], no entry is made for the path, and the object that was
    being built holds the one non-leaf link. *)
Theorem C1_add_symlink_raises :
  os_readlink (fs []) "/tmp/l" = inr "f" /\
  os_readlink (fs []) "/tmp/f" = inl EINVAL /\
  fst (Watcher_add linux (fs []) 8 "/tmp/l" IN_MODIFY_linux Watcher_init)
  = Exc (AttributeError "module 'os' has no attribute 'join'") /\
  paths (snd (Watcher_add linux (fs []) 8 "/tmp/l" IN_MODIFY_linux Watcher_init))
    !! "/tmp/l" = None /\
  w_links <$> objects (snd (Watcher_add linux (fs []) 8 "/tmp/l" IN_MODIFY_linux
                                        Watcher_init)) !! 0%nat
  = Some [ {| l_idx := 0; l_watch := 0; l_mask := link_mask linux; l_path := "/tmp";
              l_name := Some "l"; l_wd := 2 |} ].
Proof. repeat split; vm_compute; reflexivity. Qed.

(** C3, where the code departs from the claim.  [/tmp/d] is a symbolic
    link to an entry that does not exist.  The first turn of the loop reads
    the link, registers it and raises [AttributeError] at [os.join]; the turn
    at link depth 1, where the handler would return, is never run.  A path
    with no entry at all raises at depth 0, but not the error the handler
    names: [InotifyWatcherException] is bound nowhere in the module, and
    the [raise] statement of line 257 ends in [NameError]. *)
Theorem C3_add_dangling_symlink_raises :
  os_readlink (fs []) "/tmp/d" = inr "gone" /\
  os_readlink (fs []) "/tmp/gone" = inl ENOENT /\
  fst (Watcher_add linux (fs []) 8 "/tmp/d" IN_MODIFY_linux Watcher_init)
  = Exc (AttributeError "module 'os' has no attribute 'join'") /\
  paths (snd (Watcher_add linux (fs []) 8 "/tmp/d" IN_MODIFY_linux Watcher_init))
    !! "/tmp/d" = None /\
  fst (Watcher_add linux (fs []) 8 "/no/such/path" IN_MODIFY_linux Watcher_init)
  = Exc (NameError "InotifyWatcherException").
Proof. repeat split; vm_compute; reflexivity. Qed.

(** ** C5: what [_Watch.handle_event] yields *)

(** For a watch whose path has a component, the generator yields one
    event: the event itself when the link is the last one and the masks
    meet, the synthetic one (link-changed mask, cookie 0, no name)
    otherwise. *)
Lemma Watch_handle_event_branches (G : Globals) self w p event idx s :
  objects s !! self = Some w ->
  posixpath.join_star (w_path w) = Val p ->
  (Z.of_nat idx = Z.of_nat (length (w_links w)) - 1 /\
   Z.land (raw_mask event) (w_mask w) <> 0 ->
   Watch_handle_event G self event idx s = (Val [Event_init event p], s)) /\
  (~ (Z.of_nat idx = Z.of_nat (length (w_links w)) - 1 /\
      Z.land (raw_mask event) (w_mask w) <> 0) ->
   Watch_handle_event G self event idx s
   = (Val [ {| ev_raw := semirawevent (IN_LINK_CHANGED G) 0 None (raw_wd event);
               ev_path := p; ev_mask := IN_LINK_CHANGED G; ev_cookie := 0;
               ev_name := None |} ], s)).
Proof.
  intros Hw Hp. rewrite (Watch_handle_event_joined G _ _ _ _ _ _ Hw Hp).
  unfold yielded.
  destruct (Z.eqb_spec (Z.of_nat idx) (Z.of_nat (length (w_links w)) - 1)) as [Hi|Hi];
    destruct (Z.eqb_spec (Z.land (raw_mask event) (w_mask w)) 0) as [Hm|Hm]; simpl;
    split; intros H; try reflexivity; tauto.
Qed.

(** C5, where the code departs from the claim.  A watch on the working
    directory ["."] is built ([_normpath] keeps no component of the path),
    and [handle_event] raises [TypeError] from [path.join] with no argument
    in both branches: for the write that meets the mask on the last link,
    and for the event that does not.  Nothing is yielded, and the
    exception leaves [Watcher.read]. *)
Theorem C5_handle_event_empty_path :
  fst (Watcher_add linux (fs [[modify_on 2]]) 8 "." IN_MODIFY_linux Watcher_init)
  = Val 0%nat /\
  w_path <$> objects (snd (Watcher_add linux (fs [[modify_on 2]]) 8 "." IN_MODIFY_linux
                                       Watcher_init)) !! 0%nat = Some [] /\
  fst (Watch_handle_event linux_globals 0 (modify_on 2) 0
         (snd (Watcher_add linux (fs [[modify_on 2]]) 8 "." IN_MODIFY_linux Watcher_init)))
  = Exc (TypeError "join() missing 1 required positional argument: 'a'") /\
  fst (Watch_handle_event linux_globals 0 (delete_self_on 2) 0
         (snd (Watcher_add linux (fs [[modify_on 2]]) 8 "." IN_MODIFY_linux Watcher_init)))
  = Exc (TypeError "join() missing 1 required positional argument: 'a'") /\
  fst (Watcher_read linux linux_globals (fs [[modify_on 2]]) true None false
         (snd (Watcher_add linux (fs [[modify_on 2]]) 8 "." IN_MODIFY_linux Watcher_init)))
  = Exc (TypeError "join() missing 1 required positional argument: 'a'").
Proof. repeat split; vm_compute; reflexivity. Qed.

(** ** C2: a second [add] of the same path *)

(** C2, where the code departs from the claim.  For a path that has an
    entry, [add] calls [update_mask] on the [_Watch] of the entry (line 175):
    the code does attempt the widening the claim describes, but class
    [_Watch] defines no such method, and [AttributeError] leaves [add]
    there.  The mask of the existing watch is not widened, no new watch is
    constructed, nothing is registered, and the entry of the path is the
    old object: the [Watcher] is as it was. *)
Theorem C2_add_again_raises (K : Consts) (W : World) (fuel : nat) (pth : string)
    (mask : Z) (s : Store) (old : nat) (w0 : Watch) :
  paths s !! pth = Some old ->
  objects s !! old = Some w0 ->
  Watcher_add K W fuel pth mask s
  = (Exc (AttributeError "'_Watch' object has no attribute 'update_mask'"), s) /\
  objects (snd (Watcher_add K W fuel pth mask s)) !! old = Some w0 /\
  paths (snd (Watcher_add K W fuel pth mask s)) !! pth = Some old /\
  next_id (snd (Watcher_add K W fuel pth mask s)) = next_id s /\
  watchdescriptors (snd (Watcher_add K W fuel pth mask s)) = watchdescriptors s.
Proof.
  intros Hp Ho. rewrite (Watcher_add_again K W fuel pth mask old s Hp).
  repeat split; assumption.
Qed.

(** [/tmp/f] is added for writes, then again for attribute changes: the
    watch of the first [add] keeps the mask [IN_MODIFY]. *)
Lemma C2_add_again_raises_witness :
  Watcher_add linux (fs []) 8 "/tmp/f" 0x4 (watching_f [])
  = (Exc (AttributeError "'_Watch' object has no attribute 'update_mask'"),
     watching_f []) /\
  objects (snd (Watcher_add linux (fs []) 8 "/tmp/f" 0x4 (watching_f []))) !! 0%nat
  = Some (resolved_watch linux (fs []) 0 "/tmp/f" IN_MODIFY_linux 1 (2049, 11)) /\
  paths (snd (Watcher_add linux (fs []) 8 "/tmp/f" 0x4 (watching_f []))) !! "/tmp/f"
  = Some 0%nat /\
  next_id (snd (Watcher_add linux (fs []) 8 "/tmp/f" 0x4 (watching_f [])))
  = next_id (watching_f []) /\
  watchdescriptors (snd (Watcher_add linux (fs []) 8 "/tmp/f" 0x4 (watching_f [])))
  = watchdescriptors (watching_f []).
Proof.
  apply (C2_add_again_raises linux (fs []) 8 "/tmp/f" 0x4 (watching_f []) 0%nat).
  - vm_compute. reflexivity.
  - vm_compute. reflexivity.
Defined.

(** ** C4 and C10: [read] with an empty registry *)




(** C10: a [Watcher] whose buffer holds events returns them from [read]
    and empties the buffer, whatever the arguments and whatever the
    registry holds, an empty registry included; so a [read] that raises,
    whatever it raises, found the buffer empty. *)
Theorem C10_buffer_before_registry (K : Consts) (G : Globals) (W : World) (s : Store)
    (block : bool) (bufsize : option Z) (store_events : bool) :
  buffer s <> [] ->
  Watcher_read K G W block bufsize store_events s
  = (Val (Some (buffer s)), with_buffer [] s) /\
  buffer (snd (Watcher_read K G W block bufsize store_events s)) = [] /\
  (forall s0 e b bs se,
     fst (Watcher_read K G W b bs se s0) = Exc e ->
     buffer s0 = []).
Proof.
  intros Hb. rewrite (Watcher_read_drain K G W block bufsize store_events s Hb).
  repeat split. intros s0 e b bs se Hraise.
  destruct (buffer s0) as [|ev l] eqn:Hb0; [reflexivity|].
  rewrite Watcher_read_drain in Hraise by (rewrite Hb0; discriminate).
  discriminate.
Qed.

(** One buffered event, and a registry that the stored batch emptied. *)
Lemma C10_buffer_before_registry_witness :
  size (watchdescriptors after_delete) = 0%nat /\
  Watcher_read linux linux_globals (fs []) true None false after_delete
  = (Val (Some (buffer after_delete)), with_buffer [] after_delete).
Proof.
  split; [vm_compute; reflexivity|].
  apply (C10_buffer_before_registry linux linux_globals (fs []) after_delete true None false).
  vm_compute. discriminate.
Defined.

(** ** C9: storing events and reading them back *)

(** C9, the claim as stated fails, in three ways.  (a) A storing [read]
    that collects no event leaves the buffer empty, and the next [read]
    makes a low-level read of its own and returns that read's events.  (b)
    After the buffer is drained, a [read] over a registry that the stored
    batch emptied raises without a low-level read.  (c) A storing [read]
    that finds events in the buffer returns them. *)
Lemma C9_counterexample :
  (fst (Watcher_read linux linux_globals (fs [[]; [modify_on 1]]) false None true
          (watching_f [[]; [modify_on 1]])) = Val None /\
   buffer (snd (Watcher_read linux linux_globals (fs [[]; [modify_on 1]]) false None true
                  (watching_f [[]; [modify_on 1]]))) = [] /\
   lowreads (snd (Watcher_read linux linux_globals (fs [[]; [modify_on 1]]) false None true
                    (watching_f [[]; [modify_on 1]]))) = 1%nat /\
   fst (Watcher_read linux linux_globals (fs [[]; [modify_on 1]]) true None false
          (snd (Watcher_read linux linux_globals (fs [[]; [modify_on 1]]) false None true
                  (watching_f [[]; [modify_on 1]]))))
   = Val (Some [Event_init (modify_on 1) "tmp/f"]) /\
   lowreads
     (snd (Watcher_read linux linux_globals (fs [[]; [modify_on 1]]) true None false
             (snd (Watcher_read linux linux_globals (fs [[]; [modify_on 1]]) false None true
                     (watching_f [[]; [modify_on 1]]))))) = 2%nat) /\
  (Watcher_read linux linux_globals (fs [[delete_self_on 1; ignored_on 1]]) true None false
     (with_buffer [] after_delete)
   = (Exc (NameError "NoFilesException"), with_buffer [] after_delete)) /\
  (buffer after_delete = [Event_init (semirawevent 0x100000000 0 None 1) "tmp/f"] /\
   fst (Watcher_read linux linux_globals (fs [[delete_self_on 1; ignored_on 1]])
          true None true after_delete)
   = Val (Some [Event_init (semirawevent 0x100000000 0 None 1) "tmp/f"])).
Proof. repeat split; vm_compute; reflexivity. Qed.

(** C9 (amended): let a storing [read] return on a [Watcher] whose buffer
    was empty.  It returns nothing, it made one low-level read, and the
    buffer holds the events dispatched from that read.  If at least one
    event was collected, the next [read] returns exactly the buffered events,
    empties the buffer and makes no low-level read; and a further [read],
    when the registry is not empty, makes a low-level read. *)
Theorem C9_store_then_drain (K : Consts) (G : Globals) (W : World) (s s1 : Store)
    (block : bool) (bufsize : option Z) (r : option (list Event)) :
  buffer s = [] ->
  Watcher_read K G W block bufsize true s = (Val r, s1) ->
  r = None /\
  lowreads s1 = S (lowreads s) /\
  (exists evts s',
     inotify_read W (lowreads s) (read_bufsize block bufsize) = inr evts /\
     dispatch K G evts [] (after_low_read s) = (Val (buffer s1), s') /\
     s1 = with_buffer (buffer s1) s') /\
  (buffer s1 <> [] ->
   forall b bs se,
     Watcher_read K G W b bs se s1 = (Val (Some (buffer s1)), with_buffer [] s1) /\
     lowreads (snd (Watcher_read K G W b bs se s1)) = lowreads s1 /\
     (size (watchdescriptors s1) <> 0%nat ->
      forall b' bs' se',
        lowreads (snd (Watcher_read K G W b' bs' se'
                         (snd (Watcher_read K G W b bs se s1))))
        = S (lowreads s1))).
Proof.
  intros Hb Hrun.
  assert (Hsz : size (watchdescriptors s) <> 0%nat).
  { intros Hsz. rewrite Watcher_read_no_files in Hrun by assumption. discriminate. }
  rewrite Watcher_read_unfold in Hrun by assumption.
  destruct (inotify_read W (lowreads s) (read_bufsize block bufsize)) as [e|evts];
    [discriminate|].
  pose proof (dispatch_frame K G evts [] (after_low_read s)) as (_ & Hbuf & _ & _ & Hlow).
  destruct (dispatch K G evts [] (after_low_read s)) as [[events| |] s'] eqn:Hdisp;
    try discriminate.
  simpl in Hbuf, Hlow. injection Hrun as <- <-. simpl.
  rewrite Hbuf, Hb. simpl.
  split; [reflexivity|]. split; [exact Hlow|]. split.
  - exists evts, s'. split; [reflexivity|]. split; [exact Hdisp|reflexivity].
  - intros Hne b bs se.
    rewrite (Watcher_read_drain K G W b bs se (with_buffer events s') Hne). simpl.
    split; [reflexivity|]. split; [reflexivity|].
    intros Hsz1 b' bs' se'.
    rewrite Watcher_read_low; [reflexivity|reflexivity|exact Hsz1].
Qed.

(** A storing [read] of one write to the watched file. *)
Lemma C9_store_then_drain_witness :
  fst (Watcher_read linux linux_globals (fs [[modify_on 1]; [modify_on 1]]) true None true
         (watching_f [[modify_on 1]; [modify_on 1]])) = Val None /\
  buffer (snd (Watcher_read linux linux_globals (fs [[modify_on 1]; [modify_on 1]])
                 true None true (watching_f [[modify_on 1]; [modify_on 1]])))
  = [Event_init (modify_on 1) "tmp/f"] /\
  lowreads (snd (Watcher_read linux linux_globals (fs [[modify_on 1]; [modify_on 1]])
                   true None true (watching_f [[modify_on 1]; [modify_on 1]])))
  = 1%nat.
Proof.
  assert (Hb : buffer (watching_f [[modify_on 1]; [modify_on 1]]) = [])
    by (vm_compute; reflexivity).
  assert (Hrun :
    Watcher_read linux linux_globals (fs [[modify_on 1]; [modify_on 1]]) true None true
      (watching_f [[modify_on 1]; [modify_on 1]])
    = (Val None,
       snd (Watcher_read linux linux_globals (fs [[modify_on 1]; [modify_on 1]])
              true None true (watching_f [[modify_on 1]; [modify_on 1]])))).
  { vm_compute. reflexivity. }
  pose proof (C9_store_then_drain linux linux_globals (fs [[modify_on 1]; [modify_on 1]])
                _ _ true None None Hb Hrun) as (_ & Hlow & _ & _).
  split; [vm_compute; reflexivity|].
  split; [vm_compute; reflexivity|exact Hlow].
Defined.

(** ** C6: the event of a write to a watched file *)

Lemma table_get_set_eq key v t : table_get key (table_set key v t) = Some v.
Proof.
  induction t as [|[k x] r IH]; simpl.
  - rewrite String.eqb_refl. reflexivity.
  - destruct (String.eqb k key) eqn:Hk; simpl; rewrite Hk; [reflexivity|exact IH].
Qed.

Lemma table_get_set_ne key key' v t :
  key <> key' -> table_get key (table_set key' v t) = table_get key t.
Proof.
  intros Hne. induction t as [|[k x] r IH]; simpl.
  - destruct (String.eqb_spec key' key); [congruence|reflexivity].
  - destruct (String.eqb_spec k key') as [->|Hk]; simpl.
    + destruct (String.eqb_spec key' key); [congruence|reflexivity].
    + destruct (String.eqb k key); [reflexivity|exact IH].
Qed.

Lemma table_get_In key v t : table_get key t = Some v -> In (key, v) t.
Proof.
  induction t as [|[k x] r IH]; simpl; [discriminate|].
  destruct (String.eqb_spec k key) as [->|Hk].
  - intros [= ->]. left. reflexivity.
  - intros H. right. apply IH. exact H.
Qed.

Lemma land_lor_meets (a b c : Z) : Z.land a b <> 0 -> Z.land a (Z.lor b c) <> 0.
Proof.
  intros H Hz. rewrite Z.land_lor_distr_r in Hz.
  apply Z.lor_eq_0_iff in Hz. tauto.
Qed.

Lemma run_callbacks_single (G : Globals) m n cb w p event s :
  negb (Z.land (raw_mask event) m =? 0) && name_matches n (raw_name event) = true ->
  objects s !! cb_watch cb = Some w ->
  posixpath.join_star (w_path w) = Val p ->
  run_callbacks G [(m, n, cb)] event s = (Val [yielded G w p event (cb_idx cb)], s).
Proof.
  intros Hcond Hw Hp. simpl. rewrite Hcond. unfold bind, Link_handle_event.
  rewrite (Watch_handle_event_joined G _ _ _ _ _ _ Hw Hp). reflexivity.
Qed.

Lemma Descriptor_handle_event_value (K : Consts) (G : Globals) d d' event es s :
  run_callbacks G (d_callbacks d) event s = (Val es, s) ->
  watchdescriptors s !! d_wd d = Some d' ->
  fst (Descriptor_handle_event K G d event s) = Val es.
Proof.
  intros Hrun Hd. unfold Descriptor_handle_event, bind. rewrite Hrun.
  destruct (negb (Z.land (raw_mask event) (IN_IGNORED K) =? 0)); [|reflexivity].
  unfold Watcher_removewatch, bind, get. rewrite Hd. reflexivity.
Qed.

Lemma dispatch_single (K : Consts) (G : Globals) evt d es events s :
  watchdescriptors s !! raw_wd evt = Some d ->
  fst (Descriptor_handle_event K G d evt s) = Val es ->
  fst (dispatch K G [evt] events s) = Val (events ++ es).
Proof.
  intros Hd Hes. simpl. unfold bind, get. rewrite Hd.
  destruct (Descriptor_handle_event K G d evt s) as [r s']. simpl in Hes. subst r.
  reflexivity.
Qed.

(** A first [add] of a path that is no symbolic link, then a [read] that
    answers one raw event on the new watch descriptor whose mask meets the
    requested mask: one event, the raw event at the joined path. *)
Lemma plain_watch_read (K : Consts) (G : Globals) (W : World) (fuel : nat) (F p : string)
    (mask wd : Z) (st : Z * Z) (block : bool) (bufsize : option Z) (event : rawevent) :
  os_readlink W F = inl EINVAL ->
  inotify_add_watch W F (leaf_mask K mask) = inr wd ->
  os_stat W F = inr st ->
  posixpath.join_star (Watch_normpath F) = Val p ->
  raw_wd event = wd ->
  Z.land (raw_mask event) mask <> 0 ->
  inotify_read W 0 (read_bufsize block bufsize) = inr [event] ->
  fst (Watcher_read K G W block bufsize false
         (snd (Watcher_add K W (S fuel) F mask Watcher_init)))
  = Val (Some [Event_init event p]).
Proof.
  intros Hrl Hwd Hst Hp Hev Hmeet Hread. subst wd.
  rewrite Watcher_add_fresh by apply lookup_empty.
  rewrite (Watch_init_plain K W fuel F mask (raw_wd event) st Watcher_init Hrl Hwd Hst).
  cbn [snd].
  set (s1 := with_paths _ (resolved_store K W Watcher_init F mask (raw_wd event) st)).
  rewrite Watcher_read_unfold; [|reflexivity|apply register_size].
  change (lowreads s1) with 0%nat. rewrite Hread.
  assert (Hcb : negb (Z.land (raw_mask event) (leaf_mask K mask) =? 0)
                && name_matches None (raw_name event) = true).
  { apply andb_true_iff. split; [|reflexivity]. apply negb_true_iff, Z.eqb_neq.
    unfold leaf_mask. apply land_lor_meets, land_lor_meets. exact Hmeet. }
  assert (Hlook : watchdescriptors (after_low_read s1) !! raw_wd event
                  = Some (Descriptor_add_callback F (leaf_mask K mask) None
                            {| cb_watch := 0; cb_idx := 0 |} (Descriptor_init (raw_wd event)))).
  { cbn [watchdescriptors after_low_read s1 with_paths resolved_store].
    rewrite register_lookup.
    change (watchdescriptors Watcher_init) with (∅ : gmap Z Descriptor).
    rewrite lookup_empty. reflexivity. }
  assert (Hobj : objects (after_low_read s1) !! 0%nat
                 = Some (resolved_watch K W 0 F mask (raw_wd event) st)).
  { cbn [objects after_low_read s1 with_paths resolved_store].
    apply lookup_insert_eq. }
  pose proof (run_callbacks_single G (leaf_mask K mask) None
                {| cb_watch := 0; cb_idx := 0 |} _ p event _ Hcb Hobj Hp) as Hrun.
  pose proof (Descriptor_handle_event_value K G
                (Descriptor_add_callback F (leaf_mask K mask) None
                   {| cb_watch := 0; cb_idx := 0 |} (Descriptor_init (raw_wd event)))
                _ event _ _ Hrun Hlook) as Hval.
  pose proof (dispatch_single K G event _ _ [] _ Hlook Hval) as Hdisp.
  destruct (dispatch K G [event] [] (after_low_read s1)) as [r s2].
  simpl in Hdisp. subst r. simpl. do 2 f_equal.
  unfold yielded. cbn [w_links w_mask resolved_watch length cb_idx].
  destruct (Z.eqb_spec (Z.land (raw_mask event) mask) 0) as [Hz|_]; [contradiction|].
  reflexivity.
Qed.

(** The event path of a watch on an absolute path has lost the root. *)
Example fullpath_of_absolute_path :
  Event_fullpath <$>
    (match fst (Watcher_read linux linux_globals (fs [[modify_on 1]]) true None false
                  (watching_f [[modify_on 1]])) with
     | Val (Some [e]) => Some e
     | _ => None
     end)
  = Some "tmp/f".
Proof. vm_compute. reflexivity. Qed.

(** C6, the claim as stated fails: for the requested path [./f], a
    regular file, the event of a write has the full path [f]: [_normpath]
    drops the [.] component (and empty ones) before [path.join] puts the
    rest together. *)
Lemma C6_counterexample :
  os_readlink (fs [[modify_on 1]]) "./f" = inl EINVAL /\
  fst (Watcher_add linux (fs [[modify_on 1]]) 8 "./f" IN_MODIFY_linux Watcher_init)
  = Val 0%nat /\
  exists e,
    fst (Watcher_read linux linux_globals (fs [[modify_on 1]]) true None false
           (snd (Watcher_add linux (fs [[modify_on 1]]) 8 "./f" IN_MODIFY_linux
                   Watcher_init)))
    = Val (Some [e]) /\
    Event_fullpath e = "f" /\
    Event_fullpath e <> "./f".
Proof.
  split; [reflexivity|]. split; [vm_compute; reflexivity|].
  eexists. split; [vm_compute; reflexivity|]. split; [reflexivity|discriminate].
Qed.

(** C6 (amended): let the module be imported over a table of non-negative
    flags whose union is not a power of two and which names [IN_MODIFY], and
    let [F] be a requested path with no empty and no [.] component that
    names an entry which is no symbolic link.  A new [Watcher] that adds [F]
    with a mask that meets [IN_MODIFY] and then reads one raw event on the
    new watch descriptor, with mask [IN_MODIFY] and no name, returns one
    event: its full path is [F], its modify flag is set and its link-changed
    flag is clear. *)
Theorem C6_modify_event_fullpath (K : Consts) (W : World) (G : Globals)
    (fuel_import fuel : nat) (F : string) (mask m wd : Z) (st : Z * Z)
    (bufsize : option Z) :
  import_module fuel_import K = Val G ->
  Forall (fun kv => 0 <= snd kv) (constants K) ->
  is_pow2 (inotify_builtin_constants G) = false ->
  table_get "IN_MODIFY" (constants K) = Some m ->
  Z.land m mask <> 0 ->
  clean_path F = true ->
  os_readlink W F = inl EINVAL ->
  inotify_add_watch W F (Z.lor (Z.lor mask (IN_MOVE_SELF K)) (IN_DELETE_SELF K)) = inr wd ->
  os_stat W F = inr st ->
  inotify_read W 0 (read_bufsize true bufsize)
  = inr [ {| raw_wd := wd; raw_mask := m; raw_cookie := 0; raw_name := None |} ] ->
  exists e,
    fst (Watcher_read K G W true bufsize false
           (snd (Watcher_add K W (S fuel) F mask Watcher_init)))
    = Val (Some [e]) /\
    Event_fullpath e = F /\
    (exists v, Event_getter G "IN_MODIFY" e = Some v /\ v <> 0) /\
    Event_getter G "IN_LINK_CHANGED" e = Some 0.
Proof.
  intros Himp Hpos Hnp Hm Hmeet Hclean Hrl Hwd Hst Hread.
  exists (Event_init {| raw_wd := wd; raw_mask := m; raw_cookie := 0; raw_name := None |} F).
  destruct (import_module_inv _ _ _ Himp) as (_ & Hl & Htab).
  split; [|split; [reflexivity|split]].
  - apply (plain_watch_read K G W fuel F F mask wd st true bufsize); try assumption.
    + apply join_star_clean. exact Hclean.
    + reflexivity.
  - exists m. unfold Event_getter. rewrite Htab.
    rewrite table_get_set_ne by discriminate. rewrite Hm. simpl.
    rewrite Z.land_diag. split; [reflexivity|].
    intros ->. apply Hmeet. apply Z.land_0_l.
  - unfold Event_getter. rewrite Htab at 1. rewrite table_get_set_eq. simpl. f_equal.
    rewrite Z.land_comm.
    apply (no_collision fuel_import K G Himp Hpos).
    + rewrite Hl. apply not_pow2_lt. exact Hnp.
    + apply in_map_iff. exists ("IN_MODIFY", m). split; [reflexivity|].
      apply table_get_In. exact Hm.
Qed.

(** The file [f] of the working directory, over Linux's table. *)
Lemma C6_modify_event_fullpath_witness :
  clean_path "f" = true /\
  exists e,
    fst (Watcher_read linux linux_globals (fs [[modify_on 1]]) true None false
           (snd (Watcher_add linux (fs [[modify_on 1]]) 1 "f" IN_MODIFY_linux Watcher_init)))
    = Val (Some [e]) /\
    Event_fullpath e = "f" /\
    (exists v, Event_getter linux_globals "IN_MODIFY" e = Some v /\ v <> 0) /\
    Event_getter linux_globals "IN_LINK_CHANGED" e = Some 0.
Proof.
  split; [reflexivity|].
  apply (C6_modify_event_fullpath linux (fs [[modify_on 1]]) linux_globals 40 0 "f"
           IN_MODIFY_linux 0x2 1 (2049, 11) None).
  - vm_compute. reflexivity.
  - repeat constructor; simpl; lia.
  - vm_compute. reflexivity.
  - reflexivity.
  - vm_compute. discriminate.
  - reflexivity.
  - reflexivity.
  - reflexivity.
  - reflexivity.
  - reflexivity.
Defined.

(** * Further properties *)

(** ** The import, the flag properties and [decode_mask] *)

Lemma link_changed_pos (fuel : nat) (K : Consts) (g : Globals) :
  import_module fuel K = Val g -> 0 < IN_LINK_CHANGED g.
Proof.
  intros Himp. destruct (import_module_inv _ _ _ Himp) as (_ & -> & _).
  apply Z.pow_pos_nonneg; [lia|apply Z.log2_up_nonneg].
Qed.

Lemma link_changed_misses_union (fuel : nat) (K : Consts) (g : Globals) :
  import_module fuel K = Val g ->
  Forall (fun kv => 0 <= snd kv) (constants K) ->
  is_pow2 (inotify_builtin_constants g) = false ->
  Z.land (IN_LINK_CHANGED g) (inotify_builtin_constants g) = 0.
Proof.
  intros Himp Hpos Hnp. destruct (import_module_inv _ _ _ Himp) as (Hu & Hl & _).
  assert (Hvs : Forall (fun v => 0 <= v) (map snd (constants K))).
  { apply List.Forall_forall. intros x Hx. apply in_map_iff in Hx as ([a b] & <- & Hab).
    rewrite List.Forall_forall in Hpos. apply (Hpos (a, b)). exact Hab. }
  rewrite Hl. apply land_pow2_clear; [apply Z.log2_up_nonneg|].
  apply high_bit_clear; [apply Z.log2_up_nonneg| |apply not_pow2_lt; exact Hnp].
  exact (reduce_or_nonneg _ _ Hu Hvs).
Qed.

(** Lines 80 to 84 end: over an empty table [reduce] raises [TypeError]
    whatever the fuel; over any other table the loop stops, and from some
    amount of fuel on the import returns one and the same set of globals. *)
Theorem import_module_terminates (K : Consts) :
  (constants K = [] ->
   forall fuel,
     import_module fuel K
     = Exc (TypeError "reduce() of empty sequence with no initial value")) /\
  (constants K <> [] ->
   exists fuel0 g, forall fuel, (fuel0 <= fuel)%nat -> import_module fuel K = Val g).
Proof.
  split.
  - intros Hnil fuel. unfold import_module. rewrite Hnil. reflexivity.
  - intros Hne. unfold import_module.
    destruct (constants K) as [|[k v] t] eqn:Hc; [contradiction|]. simpl.
    set (u := fold_left Z.lor (map snd t) v).
    exists (S (Z.to_nat (Z.log2_up u))). eexists. intros fuel Hfuel.
    rewrite shift_until_from_one by lia. reflexivity.
Qed.

(** The flag properties of a synthetic event (lines 94 to 99, 158 to 159
    and 279): the [link_changed] property is set, and every property of a
    flag of the collaborator's table is clear. *)
Theorem synthetic_event_flags (K : Consts) (fuel : nat) (g : Globals) (p : string)
    (wd : Z) :
  import_module fuel K = Val g ->
  Forall (fun kv => 0 <= snd kv) (constants K) ->
  is_pow2 (inotify_builtin_constants g) = false ->
  (exists v,
     Event_getter g "IN_LINK_CHANGED"
       (Event_init (semirawevent (IN_LINK_CHANGED g) 0 None wd) p) = Some v /\
     v <> 0) /\
  (forall key v,
     key <> "IN_LINK_CHANGED" ->
     table_get key (constants K) = Some v ->
     Event_getter g key (Event_init (semirawevent (IN_LINK_CHANGED g) 0 None wd) p)
     = Some 0).
Proof.
  intros Himp Hpos Hnp.
  destruct (import_module_inv _ _ _ Himp) as (_ & Hl & Htab).
  split.
  - exists (IN_LINK_CHANGED g). unfold Event_getter. rewrite Htab at 1.
    rewrite table_get_set_eq. simpl. rewrite Z.land_diag. split; [reflexivity|].
    pose proof (link_changed_pos _ _ _ Himp). lia.
  - intros key v Hkey Hget. unfold Event_getter. rewrite Htab.
    rewrite table_get_set_ne by exact Hkey. rewrite Hget. simpl. f_equal.
    apply (no_collision fuel K g Himp Hpos).
    + rewrite Hl. apply not_pow2_lt. exact Hnp.
    + apply in_map_iff. exists (key, v). split; [reflexivity|].
      apply table_get_In. exact Hget.
Qed.

(** Over Linux's table. *)
Lemma synthetic_event_flags_witness :
  (exists v,
     Event_getter linux_globals "IN_LINK_CHANGED"
       (Event_init (semirawevent (IN_LINK_CHANGED linux_globals) 0 None 1) "tmp/f")
     = Some v /\ v <> 0) /\
  (forall key v,
     key <> "IN_LINK_CHANGED" ->
     table_get key (constants linux) = Some v ->
     Event_getter linux_globals key
       (Event_init (semirawevent (IN_LINK_CHANGED linux_globals) 0 None 1) "tmp/f")
     = Some 0).
Proof.
  apply (synthetic_event_flags linux 40 linux_globals "tmp/f" 1).
  - vm_compute. reflexivity.
  - repeat constructor; simpl; lia.
  - vm_compute. reflexivity.
Defined.

(** [decode_mask] (lines 86 to 90): the collaborator is shown the bits of
    its own table only; a mask made of such bits decodes as the collaborator
    decodes it, and the same mask with the synthetic bit added decodes to
    the same names followed by [IN_LINK_CHANGED]. *)
Theorem decode_mask_synthetic (K : Consts) (fuel : nat) (g : Globals)
    (inotify_decode_mask : Z -> list string) (x : Z) :
  import_module fuel K = Val g ->
  Forall (fun kv => 0 <= snd kv) (constants K) ->
  is_pow2 (inotify_builtin_constants g) = false ->
  Z.land x (inotify_builtin_constants g) = x ->
  decode_mask g inotify_decode_mask x = inotify_decode_mask x /\
  decode_mask g inotify_decode_mask (Z.lor x (IN_LINK_CHANGED g))
  = inotify_decode_mask x ++ ["IN_LINK_CHANGED"].
Proof.
  intros Himp Hpos Hnp Hx.
  pose proof (link_changed_misses_union _ _ _ Himp Hpos Hnp) as Hmiss.
  pose proof (link_changed_pos _ _ _ Himp) as Hlpos.
  assert (HxL : Z.land x (IN_LINK_CHANGED g) = 0).
  { rewrite <- Hx, <- Z.land_assoc, (Z.land_comm (inotify_builtin_constants g)), Hmiss.
    apply Z.land_0_r. }
  unfold decode_mask. split.
  - rewrite Hx, HxL. reflexivity.
  - rewrite !Z.land_lor_distr_l, Hx, Hmiss, HxL, Z.land_diag, Z.lor_0_r, Z.lor_0_l.
    destruct (Z.eqb_spec (IN_LINK_CHANGED g) 0) as [H0|_]; [lia|reflexivity].
Qed.

(** Over Linux's table, for the mask [IN_MODIFY | IN_ISDIR]. *)
Lemma decode_mask_synthetic_witness :
  decode_mask linux_globals linux_decode_mask 0x40000002
  = linux_decode_mask 0x40000002 /\
  decode_mask linux_globals linux_decode_mask
    (Z.lor 0x40000002 (IN_LINK_CHANGED linux_globals))
  = linux_decode_mask 0x40000002 ++ ["IN_LINK_CHANGED"].
Proof.
  apply (decode_mask_synthetic linux 40 linux_globals linux_decode_mask 0x40000002).
  - vm_compute. reflexivity.
  - repeat constructor; simpl; lia.
  - vm_compute. reflexivity.
  - vm_compute. reflexivity.
Defined.

(** ** [_normpath] and [_nonrel] *)

Section MorePaths.

Import posixpath.

Lemma str_split_single (a : string) : has_sep a = false -> str_split a = [a].
Proof.
  induction a as [|c r IH]; [reflexivity|]. simpl. intros H.
  apply orb_false_iff in H as [Hc Hr]. rewrite Hc, (IH Hr). reflexivity.
Qed.

Lemma str_split_app_sep (a r : string) :
  has_sep a = false -> str_split (a +:+ "/" +:+ r) = a :: str_split r.
Proof.
  induction a as [|c a IH]; intros H; [reflexivity|].
  simpl in H. apply orb_false_iff in H as [Hc Ha].
  change (String c a +:+ "/" +:+ r) with (String c (a +:+ "/" +:+ r)).
  simpl. rewrite Hc, (IH Ha). reflexivity.
Qed.

Lemma str_split_concat (l : list string) :
  l <> [] -> List.Forall (fun p => has_sep p = false) l ->
  str_split (String.concat "/" l) = l.
Proof.
  induction l as [|a l IH]; intros Hne Hl; [contradiction|].
  inversion Hl as [|? ? Ha Hrest]; subst.
  destruct l as [|b l'].
  - simpl. apply str_split_single. exact Ha.
  - change (String.concat "/" (a :: b :: l'))
      with (a +:+ "/" +:+ String.concat "/" (b :: l')).
    rewrite str_split_app_sep by exact Ha. rewrite IH; [reflexivity|discriminate|exact Hrest].
Qed.

Lemma str_split_trailing (p : string) : str_split (p +:+ "/") = str_split p ++ [""].
Proof.
  induction p as [|c r IH]; [reflexivity|].
  change (String c r +:+ "/") with (String c (r +:+ "/")). simpl. rewrite IH.
  destruct (is_sep c); [reflexivity|].
  pose proof (str_split_not_nil r) as Hne.
  destruct (str_split r); [contradiction|reflexivity].
Qed.

Lemma filter_filter_same {A : Type} (f : A -> bool) (l : list A) :
  List.filter f (List.filter f l) = List.filter f l.
Proof.
  induction l as [|x l IH]; [reflexivity|]. simpl.
  destruct (f x) eqn:Hx; simpl; rewrite ?Hx, IH; reflexivity.
Qed.

(** [_normpath] is a normal form: joining the kept components with the
    separator and normalising again gives the same components. *)
Theorem Watch_normpath_round_trip (pth : string) :
  Watch_normpath (String.concat "/" (Watch_normpath pth)) = Watch_normpath pth.
Proof.
  pose proof (Watch_normpath_components pth) as Hc.
  destruct (Watch_normpath pth) as [|a l] eqn:Hn; [reflexivity|].
  unfold Watch_normpath at 1. rewrite str_split_concat.
  - rewrite <- Hn. unfold Watch_normpath. apply filter_filter_same.
  - discriminate.
  - eapply List.Forall_impl; [|exact Hc]. intros p [_ Hp]. exact Hp.
Qed.

(** [_normpath] does not see a leading slash, a trailing slash or a
    leading [./]: an absolute path and the relative path of the same
    components get the same event path. *)
Theorem Watch_normpath_ignores_slashes (pth : string) :
  Watch_normpath ("/" +:+ pth) = Watch_normpath pth /\
  Watch_normpath (pth +:+ "/") = Watch_normpath pth /\
  Watch_normpath ("./" +:+ pth) = Watch_normpath pth.
Proof.
  split; [reflexivity|]. split.
  - unfold Watch_normpath. rewrite str_split_trailing, List.filter_app. simpl.
    apply app_nil_r.
  - unfold Watch_normpath.
    change ("./" +:+ pth) with ("." +:+ "/" +:+ pth).
    rewrite str_split_app_sep by reflexivity. reflexivity.
Qed.

Lemma startswith_app (a b : string) :
  startswith_sep a = true -> startswith_sep (a +:+ b) = true.
Proof. destruct a; [discriminate|]. simpl. auto. Qed.

(** [_nonrel]: an absolute path is returned as it is; with an absolute
    working directory the result is absolute, so applying [_nonrel] again
    changes nothing. *)
Theorem Watch_nonrel_absolute (w : Watch) (pth : string) :
  startswith_sep (w_cwd w) = true ->
  (startswith_sep pth = true -> Watch_nonrel w pth = pth) /\
  startswith_sep (Watch_nonrel w pth) = true /\
  Watch_nonrel w (Watch_nonrel w pth) = Watch_nonrel w pth.
Proof.
  intros Hcwd.
  assert (Habs : forall q, startswith_sep q = true -> Watch_nonrel w q = q).
  { intros q Hq. unfold Watch_nonrel, join. simpl. unfold join2. rewrite Hq. reflexivity. }
  assert (Hres : startswith_sep (Watch_nonrel w pth) = true).
  { unfold Watch_nonrel, join. simpl. unfold join2.
    destruct (startswith_sep pth) eqn:Hp; [exact Hp|].
    destruct (String.eqb (w_cwd w) "" || endswith_sep (w_cwd w));
      apply startswith_app; exact Hcwd. }
  split; [apply Habs|]. split; [exact Hres|]. apply Habs. exact Hres.
Qed.

(** The watch of the examples, made in [/tmp]. *)
Lemma Watch_nonrel_absolute_witness :
  Watch_nonrel (resolved_watch linux (fs []) 0 "f" IN_MODIFY_linux 1 (2049, 11)) "f" = "/tmp/f" /\
  Watch_nonrel (resolved_watch linux (fs []) 0 "f" IN_MODIFY_linux 1 (2049, 11)) "/tmp/f"
  = "/tmp/f".
Proof.
  destruct (Watch_nonrel_absolute
              (resolved_watch linux (fs []) 0 "f" IN_MODIFY_linux 1 (2049, 11)) "f"
              eq_refl) as (_ & _ & Hidem).
  split; [reflexivity|]. exact Hidem.
Defined.

End MorePaths.

(** ** Every outcome of the constructor of [_Watch] *)

Section Outcomes.

Context (K : Consts) (W : World).

Lemma link_append_ok self w mask pth name wd s :
  objects s !! self = Some w ->
  inotify_add_watch W pth mask = inr wd ->
  (l <- Link_init W (length (w_links w)) self mask pth name ;;
   Watch_links_append self l) s
  = (Val tt, link_added s self w mask pth name wd).
Proof.
  intros Hw Hwd. unfold Link_init, Watch_links_append, bind, get_watch, set_watch, ret.
  rewrite (Watcher_createwatch_ok W _ _ _ _ _ _ Hwd). simpl. rewrite Hw. reflexivity.
Qed.

Lemma link_append_err self w mask pth name e s :
  inotify_add_watch W pth mask = inl e ->
  (l <- Link_init W (length (w_links w)) self mask pth name ;;
   Watch_links_append self l) s
  = (Exc (OSError e), s).
Proof.
  intros Hwd. unfold Link_init, bind.
  rewrite (Watcher_createwatch_err W _ _ _ _ _ _ Hwd). reflexivity.
Qed.

(** [addleaf] when the kernel refuses the watch: the error leaves as it
    is, and nothing has changed. *)
Lemma Watch_addleaf_refused self pth w e s :
  objects s !! self = Some w ->
  inotify_add_watch W pth (leaf_mask K (w_mask w)) = inl e ->
  Watch_addleaf K W self pth s = (Exc (OSError e), s).
Proof.
  intros Hw Hwd. unfold Watch_addleaf, Link_init, bind, get_watch. rewrite Hw.
  fold (leaf_mask K (w_mask w)). rewrite (Watcher_createwatch_err W _ _ _ _ _ _ Hwd).
  reflexivity.
Qed.

(** [addleaf] when [stat] fails after the registration: the link stays. *)
Lemma Watch_addleaf_stat_fails self pth w wd e s :
  objects s !! self = Some w ->
  inotify_add_watch W pth (leaf_mask K (w_mask w)) = inr wd ->
  os_stat W pth = inl e ->
  Watch_addleaf K W self pth s
  = (Exc (OSError e), link_added s self w (leaf_mask K (w_mask w)) pth None wd).
Proof.
  intros Hw Hwd Hst.
  unfold Watch_addleaf, Link_init, Watch_links_append, bind, get_watch, set_watch, ret.
  rewrite Hw. fold (leaf_mask K (w_mask w)).
  rewrite (Watcher_createwatch_ok W _ _ _ _ _ _ Hwd). simpl.
  rewrite Hw. simpl. rewrite Hst. reflexivity.
Qed.

(** The constructor on a path that [readlink] refuses with an error other
    than [EINVAL]. *)
Lemma Watch_init_readlink_error fuel pth mask e s :
  os_readlink W pth = inl e ->
  e <> EINVAL ->
  Watch_init K W (S fuel) pth mask s
  = (Exc (if errno_eqb e ENOENT || errno_eqb e ENOTDIR
          then NameError "InotifyWatcherException"
          else OSError e),
     allocated W s pth mask).
Proof.
  intros Hrl Hne. unfold Watch_init, Watch_add, bind, alloc.
  rewrite Watch_add_loop_fuel. simpl.
  unfold bind, Watch_add_step, try_except_OSError, bind, lift_os. rewrite Hrl. simpl.
  destruct e; try contradiction; reflexivity.
Qed.

(** The constructor on a path that is no symbolic link and that the
    kernel refuses to watch. *)
Lemma Watch_init_leaf_refused fuel pth mask e s :
  os_readlink W pth = inl EINVAL ->
  inotify_add_watch W pth (leaf_mask K mask) = inl e ->
  Watch_init K W (S fuel) pth mask s = (Exc (OSError e), allocated W s pth mask).
Proof.
  intros Hrl Hwd. unfold Watch_init, Watch_add, bind, alloc.
  rewrite Watch_add_loop_fuel. simpl.
  unfold bind, Watch_add_step, try_except_OSError, bind, lift_os. rewrite Hrl. simpl.
  erewrite Watch_addleaf_refused; [reflexivity|apply lookup_insert_eq|exact Hwd].
Qed.

(** The constructor on a path that is no symbolic link and vanishes
    between [add_watch] and [stat]. *)
Lemma Watch_init_stat_fails fuel pth mask wd e s :
  os_readlink W pth = inl EINVAL ->
  inotify_add_watch W pth (leaf_mask K mask) = inr wd ->
  os_stat W pth = inl e ->
  Watch_init K W (S fuel) pth mask s
  = (Exc (OSError e),
     link_added (allocated W s pth mask) (next_id s) (empty_watch W pth mask)
                (leaf_mask K mask) pth None wd).
Proof.
  intros Hrl Hwd Hst. unfold Watch_init, Watch_add, bind, alloc.
  rewrite Watch_add_loop_fuel. simpl.
  unfold bind, Watch_add_step, try_except_OSError, bind, lift_os. rewrite Hrl. simpl.
  assert (Hw : objects (allocated W s pth mask) !! next_id s
               = Some (empty_watch W pth mask)) by apply lookup_insert_eq.
  pose proof (Watch_addleaf_stat_fails _ pth _ wd e _ Hw Hwd Hst) as Hleaf.
  unfold allocated, alloc, empty_watch in Hleaf. simpl in Hleaf.
  rewrite Hleaf. reflexivity.
Qed.

(** The constructor on a path whose entry is a symbolic link, when the
    kernel accepts to watch the directory. *)
Lemma Watch_init_symlink fuel pth mask link wd s :
  os_readlink W pth = inr link ->
  inotify_add_watch W (fst (posixpath.split pth)) (link_mask K) = inr wd ->
  Watch_init K W (S fuel) pth mask s
  = (Exc (AttributeError "module 'os' has no attribute 'join'"),
     link_added (allocated W s pth mask) (next_id s) (empty_watch W pth mask)
                (link_mask K) (fst (posixpath.split pth))
                (Some (snd (posixpath.split pth))) wd).
Proof.
  intros Hrl Hwd. unfold Watch_init, Watch_add, bind, alloc.
  rewrite Watch_add_loop_fuel. simpl.
  unfold bind, Watch_add_step, try_except_OSError, bind, lift_os. rewrite Hrl. simpl.
  unfold Watch_addlink. destruct (posixpath.split pth) as [dir name]. simpl in Hwd.
  unfold bind, get_watch, Link_init. simpl. rewrite lookup_insert_eq. simpl.
  fold (link_mask K). unfold bind.
  rewrite (Watcher_createwatch_ok W _ _ _ _ _ _ Hwd). simpl.
  unfold Watch_links_append, bind, get_watch, set_watch. simpl.
  rewrite lookup_insert_eq. reflexivity.
Qed.

(** The constructor on a path whose entry is a symbolic link, when the
    kernel refuses to watch the directory: the handler of the loop sees the
    error of [add_watch] as if [readlink] had raised it. *)
Lemma Watch_init_symlink_dir_refused fuel pth mask link e s :
  os_readlink W pth = inr link ->
  inotify_add_watch W (fst (posixpath.split pth)) (link_mask K) = inl e ->
  Watch_init K W (S fuel) pth mask s
  = if errno_eqb e EINVAL
    then match Watch_addleaf K W (next_id s) pth (allocated W s pth mask) with
         | (Val _, s') => (Val (next_id s), s')
         | (Exc e', s') => (Exc e', s')
         | (Stuck, s') => (Stuck, s')
         end
    else (Exc (if errno_eqb e ENOENT || errno_eqb e ENOTDIR
               then NameError "InotifyWatcherException"
               else OSError e),
          allocated W s pth mask).
Proof.
  intros Hrl Hwd. unfold Watch_init, Watch_add, bind, alloc.
  rewrite Watch_add_loop_fuel. simpl.
  unfold bind, Watch_add_step, try_except_OSError, bind, lift_os. rewrite Hrl. simpl.
  unfold Watch_addlink. destruct (posixpath.split pth) as [dir name]. simpl in Hwd.
  unfold bind, get_watch, Link_init. simpl. rewrite lookup_insert_eq. simpl.
  fold (link_mask K). unfold bind.
  rewrite (Watcher_createwatch_err W _ _ _ _ _ _ Hwd). simpl.
  destruct e; reflexivity.
Qed.

End Outcomes.

(** ** What the constructor leaves behind, and the invariants it keeps *)

Section Footprint.

Context (K : Consts) (W : World).

Lemma footprint_allocated s pth mask : init_footprint s (allocated W s pth mask).
Proof.
  unfold init_footprint, allocated, alloc. simpl. repeat split; auto.
  eexists. split; [reflexivity|]. left. reflexivity.
Qed.

Lemma footprint_link_added s pth mask m p n wd :
  init_footprint s
    (link_added (allocated W s pth mask) (next_id s) (empty_watch W pth mask) m p n wd).
Proof.
  unfold init_footprint, link_added, allocated, alloc, empty_watch. simpl.
  repeat split; auto.
  - right. exists p, m, n, wd. reflexivity.
  - eexists. split; [apply insert_insert_eq|]. right. eexists. simpl. auto.
Qed.

Lemma footprint_resolved s pth mask wd st :
  init_footprint s (resolved_store K W s pth mask wd st).
Proof.
  unfold init_footprint, resolved_store, resolved_watch, leaf_link. simpl.
  repeat split; auto.
  - right. exists pth, (leaf_mask K mask), None, wd. reflexivity.
  - eexists. split; [reflexivity|]. right. eexists. simpl. auto.
Qed.

Lemma Watch_addleaf_footprint s pth mask :
  init_footprint s
    (snd (Watch_addleaf K W (next_id s) pth (allocated W s pth mask))).
Proof.
  assert (Hw : objects (allocated W s pth mask) !! next_id s
               = Some (empty_watch W pth mask)) by apply lookup_insert_eq.
  destruct (inotify_add_watch W pth (leaf_mask K mask)) as [e|wd] eqn:Hwd.
  - rewrite (Watch_addleaf_refused K W _ _ _ e _ Hw Hwd). apply footprint_allocated.
  - destruct (os_stat W pth) as [e|st] eqn:Hst.
    + rewrite (Watch_addleaf_stat_fails K W _ _ _ wd e _ Hw Hwd Hst).
      apply footprint_link_added.
    + rewrite (Watch_addleaf_ok K W _ _ _ wd st _ Hw Hwd Hst).
      assert (Heq : forall x, x = resolved_store K W s pth mask wd st ->
                              init_footprint s x) by (intros x ->; apply footprint_resolved).
      apply Heq. unfold resolved_store, resolved_watch, allocated, alloc, empty_watch.
      simpl. rewrite insert_insert_eq. reflexivity.
Qed.

(** Whatever the constructor of [_Watch] does (return, raise, run out of
    fuel), it leaves the footprint of one new object and at most one new
    callback. *)
Lemma Watch_init_footprint fuel pth mask s :
  init_footprint s (snd (Watch_init K W fuel pth mask s)).
Proof.
  destruct fuel as [|fuel]; [apply footprint_allocated|].
  destruct (os_readlink W pth) as [e|link] eqn:Hrl.
  - destruct (errno_eqb e EINVAL) eqn:He.
    + destruct e; try discriminate.
      destruct (inotify_add_watch W pth (leaf_mask K mask)) as [e|wd] eqn:Hwd.
      * rewrite (Watch_init_leaf_refused K W fuel _ _ e _ Hrl Hwd).
        apply footprint_allocated.
      * destruct (os_stat W pth) as [e|st] eqn:Hst.
        -- rewrite (Watch_init_stat_fails K W fuel _ _ wd e _ Hrl Hwd Hst).
           apply footprint_link_added.
        -- rewrite (Watch_init_plain K W fuel _ _ wd st _ Hrl Hwd Hst).
           apply footprint_resolved.
    + rewrite (Watch_init_readlink_error K W fuel _ _ e _ Hrl)
        by (intros ->; discriminate).
      apply footprint_allocated.
  - destruct (inotify_add_watch W (fst (posixpath.split pth)) (link_mask K))
      as [e|wd] eqn:Hwd.
    + rewrite (Watch_init_symlink_dir_refused K W fuel _ _ link e _ Hrl Hwd).
      destruct (errno_eqb e EINVAL); [|apply footprint_allocated].
      pose proof (Watch_addleaf_footprint s pth mask) as Hf.
      destruct (Watch_addleaf K W (next_id s) pth (allocated W s pth mask))
        as [[[]| |] s']; exact Hf.
    + rewrite (Watch_init_symlink K W fuel _ _ link wd _ Hrl Hwd).
      apply footprint_link_added.
Qed.

Lemma callbacks_mask_snoc cbs m n c :
  callbacks_mask (cbs ++ [(m, n, c)]) = Z.lor (callbacks_mask cbs) m.
Proof.
  unfold callbacks_mask. rewrite map_app, fold_left_app. reflexivity.
Qed.

Lemma register_ok pth mask name cb wd (m : gmap Z Descriptor) :
  (forall k d, m !! k = Some d -> d_wd d = k /\ d_mask d = callbacks_mask (d_callbacks d)) ->
  forall k d, register pth mask name cb wd m !! k = Some d ->
    d_wd d = k /\ d_mask d = callbacks_mask (d_callbacks d).
Proof.
  intros Hm k d Hd. destruct (decide (k = wd)) as [->|Hne].
  - rewrite register_lookup in Hd. injection Hd as <-. simpl.
    rewrite callbacks_mask_snoc.
    destruct (m !! wd) as [d0|] eqn:Hd0; simpl.
    + destruct (Hm _ _ Hd0) as [-> ->]. auto.
    + auto.
  - unfold register in Hd. rewrite lookup_alter_ne in Hd by congruence.
    destruct (m !! wd); [|rewrite lookup_insert_ne in Hd by congruence];
      apply Hm; exact Hd.
Qed.

Lemma footprint_registry_ok s s' :
  init_footprint s s' -> registry_ok s -> registry_ok s'.
Proof.
  intros (_ & _ & _ & _ & Hreg & _) Hok. unfold registry_ok.
  destruct Hreg as [->|(p & m & n & wd & ->)]; [exact Hok|].
  apply register_ok. exact Hok.
Qed.

Lemma footprint_links_indexed s s' :
  init_footprint s s' -> links_indexed s -> links_indexed s'.
Proof.
  intros (_ & _ & _ & _ & _ & w & Hobj & Hlinks) Hok self w' i l Hw' Hl.
  rewrite Hobj in Hw'.
  destruct (decide (self = next_id s)) as [->|Hne].
  - rewrite lookup_insert_eq in Hw'. injection Hw' as <-.
    destruct Hlinks as [Hnil|(l0 & Hone & Hidx & Hwatch)].
    + rewrite Hnil in Hl. discriminate.
    + rewrite Hone in Hl. destruct i as [|i]; simpl in Hl; [|discriminate].
      injection Hl as <-. auto.
  - rewrite lookup_insert_ne in Hw' by congruence. exact (Hok _ _ _ _ Hw' Hl).
Qed.

End Footprint.

(** ** What [read] never does *)

Section ReadFrame.

Context (K : Consts) (G : Globals) (W : World).

Lemma registry_shrinks_refl s : registry_shrinks s s.
Proof. intros wd d H. exact H. Qed.

Lemma registry_shrinks_trans s1 s2 s3 :
  registry_shrinks s1 s2 -> registry_shrinks s2 s3 -> registry_shrinks s1 s3.
Proof. intros H12 H23 wd d H. apply H12, H23, H. Qed.

Lemma Watcher_removewatch_shrinks d s : registry_shrinks s (snd (Watcher_removewatch d s)).
Proof.
  unfold Watcher_removewatch, bind, get, raise, set_watchdescriptors.
  destruct (watchdescriptors s !! d_wd d); simpl; [|apply registry_shrinks_refl].
  intros wd d' H. simpl in H. apply lookup_delete_Some in H as [_ H]. exact H.
Qed.

Lemma Descriptor_handle_event_shrinks d event s :
  registry_shrinks s (snd (Descriptor_handle_event K G d event s)).
Proof.
  unfold Descriptor_handle_event, bind.
  pose proof (run_callbacks_store G (d_callbacks d) event s) as Hs.
  destruct (run_callbacks G (d_callbacks d) event s) as [[es| |] s1];
    simpl in Hs; subst s1; try apply registry_shrinks_refl.
  destruct (negb (Z.land (raw_mask event) (IN_IGNORED K) =? 0)).
  - pose proof (Watcher_removewatch_shrinks d s) as Hf.
    destruct (Watcher_removewatch d s) as [[[]| |] s1]; exact Hf.
  - apply registry_shrinks_refl.
Qed.

Lemma dispatch_shrinks evts :
  forall events s, registry_shrinks s (snd (dispatch K G evts events s)).
Proof.
  induction evts as [|evt rest IH]; intros events s; [apply registry_shrinks_refl|].
  simpl. unfold bind, get.
  destruct (watchdescriptors s !! raw_wd evt) as [d|]; [|apply registry_shrinks_refl].
  pose proof (Descriptor_handle_event_shrinks d evt s) as Hf.
  destruct (Descriptor_handle_event K G d evt s) as [[es| |] s1]; simpl in Hf;
    try exact Hf.
  eapply registry_shrinks_trans; [exact Hf|apply IH].
Qed.

(** [Watcher.read], whatever its arguments and its outcome, registers no
    descriptor and changes no callback of a descriptor it keeps, and leaves
    the entries of the paths and the watch objects as they are. *)
Theorem Watcher_read_adds_nothing (s : Store) (block : bool) (bufsize : option Z)
    (store_events : bool) :
  registry_shrinks s (snd (Watcher_read K G W block bufsize store_events s)) /\
  paths (snd (Watcher_read K G W block bufsize store_events s)) = paths s /\
  objects (snd (Watcher_read K G W block bufsize store_events s)) = objects s.
Proof.
  destruct (buffer s) as [|e b] eqn:Hb.
  - destruct (Nat.eq_dec (size (watchdescriptors s)) 0%nat) as [Hsz|Hsz].
    + rewrite Watcher_read_no_files by assumption. simpl.
      split; [apply registry_shrinks_refl|auto].
    + rewrite Watcher_read_unfold by assumption.
      destruct (inotify_read W (lowreads s) (read_bufsize block bufsize)) as [e|evts].
      * simpl. split; [intros wd d H; exact H|auto].
      * pose proof (dispatch_shrinks evts [] (after_low_read s)) as Hsh.
        pose proof (dispatch_frame K G evts [] (after_low_read s))
          as (Hp & _ & Ho & _ & _).
        destruct (dispatch K G evts [] (after_low_read s)) as [[events| |] s'];
          simpl in Hsh, Hp, Ho; try (split; [exact Hsh|split; assumption]).
        destruct store_events; simpl; (split; [exact Hsh|split; assumption]).
  - rewrite Watcher_read_drain by (rewrite Hb; discriminate). simpl.
    split; [intros wd d H; exact H|auto].
Qed.

Lemma shrinks_registry_ok s s' : registry_shrinks s s' -> registry_ok s -> registry_ok s'.
Proof. intros Hsh Hok wd d H. apply Hok, Hsh, H. Qed.

End ReadFrame.

(** ** Invariants of the store *)

(** The union of masks of a descriptor: a registry in which every
    descriptor sits under its own key and has as mask the union of the masks
    of its callbacks stays so through the constructor of [_Watch], whatever
    its outcome, and through [read]. *)
Theorem registry_ok_kept (K : Consts) (G : Globals) (W : World) (s : Store) :
  registry_ok s ->
  (forall fuel pth mask, registry_ok (snd (Watch_init K W fuel pth mask s))) /\
  (forall block bufsize store_events,
     registry_ok (snd (Watcher_read K G W block bufsize store_events s))).
Proof.
  intros Hok. split.
  - intros fuel pth mask.
    exact (footprint_registry_ok _ _ (Watch_init_footprint K W fuel pth mask s) Hok).
  - intros block bufsize store_events.
    destruct (Watcher_read_adds_nothing K G W s block bufsize store_events) as (Hsh & _).
    exact (shrinks_registry_ok _ _ Hsh Hok).
Qed.

Lemma registry_ok_init : registry_ok Watcher_init.
Proof. intros wd d H. simpl in H. rewrite lookup_empty in H. discriminate. Qed.

(** From a new [Watcher]. *)
Lemma registry_ok_kept_witness :
  registry_ok (snd (Watch_init linux (fs []) 8 "/tmp/l" IN_MODIFY_linux Watcher_init)) /\
  registry_ok (snd (Watcher_read linux linux_globals (fs []) true None false Watcher_init)).
Proof.
  destruct (registry_ok_kept linux linux_globals (fs []) Watcher_init registry_ok_init)
    as (Hinit & Hread).
  exact (conj (Hinit 8%nat "/tmp/l" IN_MODIFY_linux) (Hread true None false)).
Defined.

(** The index of a link: an object store in which every link has as
    [idx] its position in the chain of the watch it names as owner stays so
    through the constructor of [_Watch], whatever its outcome, and through
    [read]. *)
Theorem links_indexed_kept (K : Consts) (G : Globals) (W : World) (s : Store) :
  links_indexed s ->
  (forall fuel pth mask, links_indexed (snd (Watch_init K W fuel pth mask s))) /\
  (forall block bufsize store_events,
     links_indexed (snd (Watcher_read K G W block bufsize store_events s))).
Proof.
  intros Hok. split.
  - intros fuel pth mask.
    exact (footprint_links_indexed _ _ (Watch_init_footprint K W fuel pth mask s) Hok).
  - intros block bufsize store_events self w i l Hw Hl.
    destruct (Watcher_read_adds_nothing K G W s block bufsize store_events)
      as (_ & _ & Hobj).
    rewrite Hobj in Hw. exact (Hok _ _ _ _ Hw Hl).
Qed.

Lemma links_indexed_init : links_indexed Watcher_init.
Proof. intros self w i l H. simpl in H. rewrite lookup_empty in H. discriminate. Qed.

(** From a new [Watcher]. *)
Lemma links_indexed_kept_witness :
  links_indexed (snd (Watch_init linux (fs []) 8 "/tmp/l" IN_MODIFY_linux Watcher_init)) /\
  links_indexed (snd (Watcher_read linux linux_globals (fs []) true None false Watcher_init)).
Proof.
  destruct (links_indexed_kept linux linux_globals (fs []) Watcher_init links_indexed_init)
    as (Hinit & Hread).
  exact (conj (Hinit 8%nat "/tmp/l" IN_MODIFY_linux) (Hread true None false)).
Defined.

(** ** [Watcher.add] of a path that has no entry yet: every outcome *)

(** A first [add] that returns has built a watch of exactly one link: the
    leaf, of index 0, for the requested path itself and with no name
    filter; the inode is the answer of [stat]; the path is entered under
    the identity that is returned. *)
Theorem Watcher_add_first_returns (K : Consts) (W : World) (fuel : nat) (pth : string) (mask : Z) (s s' : Store)
    (new : nat) :
  paths s !! pth = None ->
  Watcher_add K W fuel pth mask s = (Val new, s') ->
  new = next_id s /\
  paths s' = <[pth := new]> (paths s) /\
  exists l st,
    objects s' !! new
    = Some {| w_path := Watch_normpath pth; w_cwd := os_getcwd W; w_mask := mask;
              w_links := [l]; w_inode := Some st |} /\
    os_stat W pth = inr st /\
    l_idx l = 0%nat /\ l_watch l = new /\ l_name l = None /\ l_path l = pth.
Proof.
  intros Hp Hrun. rewrite (Watcher_add_fresh K W fuel pth mask s Hp) in Hrun.
  destruct (Watch_init K W fuel pth mask s) as [[new'| |] s1] eqn:Hinit;
    try discriminate.
  injection Hrun as -> <-.
  apply Watch_init_inv in Hinit as (-> & wd & st & Hwd & Hst & ->).
  split; [reflexivity|]. split; [reflexivity|].
  exists (leaf_link K (next_id s) 0 mask pth wd), st. simpl.
  rewrite lookup_insert_eq. repeat split. exact Hst.
Qed.

Lemma Watcher_add_first_returns_witness :
  exists l st,
    objects (watching_f []) !! 0%nat
    = Some {| w_path := ["tmp"; "f"]; w_cwd := "/tmp"; w_mask := IN_MODIFY_linux;
              w_links := [l]; w_inode := Some st |} /\
    os_stat (fs []) "/tmp/f" = inr st /\
    l_idx l = 0%nat /\ l_watch l = 0%nat /\ l_name l = None /\ l_path l = "/tmp/f".
Proof.
  assert (Hrun : Watcher_add linux (fs []) 8 "/tmp/f" IN_MODIFY_linux Watcher_init
                 = (Val 0%nat, watching_f [])) by (vm_compute; reflexivity).
  destruct (Watcher_add_first_returns linux (fs []) 8 "/tmp/f" IN_MODIFY_linux
              Watcher_init _ 0%nat (lookup_empty _) Hrun) as (_ & _ & Hw).
  exact Hw.
Defined.

(** A first [add] never touches the buffer and never reads from the
    kernel; it enters the path if and only if it returns: after an [add]
    that raised, no entry has been made, although a callback may have been
    registered. *)
Theorem Watcher_add_first_all_or_nothing (K : Consts) (W : World) (fuel : nat) (pth : string) (mask : Z)
    (s : Store) :
  paths s !! pth = None ->
  buffer (snd (Watcher_add K W fuel pth mask s)) = buffer s /\
  lowreads (snd (Watcher_add K W fuel pth mask s)) = lowreads s /\
  (forall new, fst (Watcher_add K W fuel pth mask s) = Val new ->
               paths (snd (Watcher_add K W fuel pth mask s)) = <[pth := new]> (paths s)) /\
  ((forall new, fst (Watcher_add K W fuel pth mask s) <> Val new) ->
   paths (snd (Watcher_add K W fuel pth mask s)) !! pth = None /\
   paths (snd (Watcher_add K W fuel pth mask s)) = paths s).
Proof.
  intros Hp. rewrite (Watcher_add_fresh K W fuel pth mask s Hp).
  pose proof (Watch_init_footprint K W fuel pth mask s) as (Hpa & Hb & Hl & _).
  destruct (Watch_init K W fuel pth mask s) as [[new| |] s1]; simpl in *.
  - repeat split; try assumption.
    + intros new' [= ->]. rewrite Hpa. reflexivity.
    + exfalso. apply (H new). reflexivity.
    + exfalso. apply (H new). reflexivity.
  - repeat split; try assumption; try discriminate. rewrite Hpa. exact Hp.
  - repeat split; try assumption; try discriminate. rewrite Hpa. exact Hp.
Qed.

Lemma Watcher_add_first_all_or_nothing_witness :
  fst (Watcher_add linux (fs []) 8 "/tmp/l" IN_MODIFY_linux Watcher_init)
  = Exc (AttributeError "module 'os' has no attribute 'join'") /\
  paths (snd (Watcher_add linux (fs []) 8 "/tmp/l" IN_MODIFY_linux Watcher_init))
    !! "/tmp/l" = None /\
  size (watchdescriptors
          (snd (Watcher_add linux (fs []) 8 "/tmp/l" IN_MODIFY_linux Watcher_init)))
  = 1%nat.
Proof.
  destruct (Watcher_add_first_all_or_nothing linux (fs []) 8 "/tmp/l" IN_MODIFY_linux
              Watcher_init (lookup_empty _)) as (_ & _ & _ & Hfail).
  split; [vm_compute; reflexivity|]. split; [|vm_compute; reflexivity].
  apply Hfail. intros new. vm_compute. discriminate.
Defined.

(** A first [add] of a path whose entry is a symbolic link, in a directory
    the kernel accepts to watch: [AttributeError] leaves the call at
    [os.join] and the path is not entered, but what was done before stays:
    the callback for the link's name is registered on the directory's
    descriptor, for a watch object that no entry names. *)
Theorem Watcher_add_symlink_leaves_callback (K : Consts) (W : World) (fuel : nat)
    (pth link : string) (mask wd : Z) (s : Store) :
  paths s !! pth = None ->
  os_readlink W pth = inr link ->
  inotify_add_watch W (fst (posixpath.split pth)) (link_mask K) = inr wd ->
  fst (Watcher_add K W (S fuel) pth mask s)
  = Exc (AttributeError "module 'os' has no attribute 'join'") /\
  paths (snd (Watcher_add K W (S fuel) pth mask s)) = paths s /\
  watchdescriptors (snd (Watcher_add K W (S fuel) pth mask s))
  = register (fst (posixpath.split pth)) (link_mask K) (Some (snd (posixpath.split pth)))
             {| cb_watch := next_id s; cb_idx := 0 |} wd (watchdescriptors s) /\
  w_links <$> objects (snd (Watcher_add K W (S fuel) pth mask s)) !! next_id s
  = Some [ {| l_idx := 0; l_watch := next_id s; l_mask := link_mask K;
              l_path := fst (posixpath.split pth);
              l_name := Some (snd (posixpath.split pth)); l_wd := wd |} ].
Proof.
  intros Hp Hrl Hwd. rewrite (Watcher_add_fresh K W (S fuel) pth mask s Hp).
  rewrite (Watch_init_symlink K W fuel pth mask link wd s Hrl Hwd). simpl.
  rewrite lookup_insert_eq. repeat split.
Qed.

Lemma Watcher_add_symlink_leaves_callback_witness :
  fst (Watcher_add linux (fs []) 1 "/tmp/d" IN_MODIFY_linux Watcher_init)
  = Exc (AttributeError "module 'os' has no attribute 'join'") /\
  watchdescriptors (snd (Watcher_add linux (fs []) 1 "/tmp/d" IN_MODIFY_linux Watcher_init))
  = register "/tmp" (link_mask linux) (Some "d") {| cb_watch := 0; cb_idx := 0 |} 2 ∅.
Proof.
  destruct (Watcher_add_symlink_leaves_callback linux (fs []) 0 "/tmp/d" "gone"
              IN_MODIFY_linux 2 Watcher_init (lookup_empty _) eq_refl eq_refl)
    as (Hexc & _ & Hreg & _).
  exact (conj Hexc Hreg).
Defined.

(** A first [add] of a path that [readlink] refuses: on [ENOENT] and
    [ENOTDIR] the handler reaches the [raise] of line 257, which names
    [InotifyWatcherException], a name the module binds nowhere, so
    [NameError] leaves the call and not an error of the module's own; any
    other error but [EINVAL] leaves as the [OSError] it is.  Nothing is
    registered and the path is not entered. *)
Theorem Watcher_add_readlink_error (K : Consts) (W : World) (fuel : nat) (pth : string)
    (mask : Z) (e : errno) (s : Store) :
  paths s !! pth = None ->
  os_readlink W pth = inl e ->
  e <> EINVAL ->
  fst (Watcher_add K W (S fuel) pth mask s)
  = Exc (if errno_eqb e ENOENT || errno_eqb e ENOTDIR
         then NameError "InotifyWatcherException"
         else OSError e) /\
  watchdescriptors (snd (Watcher_add K W (S fuel) pth mask s)) = watchdescriptors s /\
  paths (snd (Watcher_add K W (S fuel) pth mask s)) = paths s.
Proof.
  intros Hp Hrl Hne. rewrite (Watcher_add_fresh K W (S fuel) pth mask s Hp).
  rewrite (Watch_init_readlink_error K W fuel pth mask e s Hrl Hne).
  repeat split.
Qed.

Lemma Watcher_add_readlink_error_witness :
  fst (Watcher_add linux (fs []) 1 "/no/such/path" IN_MODIFY_linux Watcher_init)
  = Exc (NameError "InotifyWatcherException") /\
  watchdescriptors (snd (Watcher_add linux (fs []) 1 "/no/such/path" IN_MODIFY_linux
                           Watcher_init)) = ∅.
Proof.
  destruct (Watcher_add_readlink_error linux (fs []) 0 "/no/such/path" IN_MODIFY_linux
              ENOENT Watcher_init (lookup_empty _) eq_refl ltac:(discriminate))
    as (Hexc & Hreg & _).
  exact (conj Hexc Hreg).
Defined.

(** A first [add] of a path that is no symbolic link and that the kernel
    refuses to watch: [addleaf] runs outside the [try], so the error of
    [add_watch] leaves untranslated, [ENOENT] included.  Nothing is
    registered and the path is not entered. *)
Theorem Watcher_add_leaf_refused (K : Consts) (W : World) (fuel : nat) (pth : string)
    (mask : Z) (e : errno) (s : Store) :
  paths s !! pth = None ->
  os_readlink W pth = inl EINVAL ->
  inotify_add_watch W pth (Z.lor (Z.lor mask (IN_MOVE_SELF K)) (IN_DELETE_SELF K)) = inl e ->
  fst (Watcher_add K W (S fuel) pth mask s) = Exc (OSError e) /\
  watchdescriptors (snd (Watcher_add K W (S fuel) pth mask s)) = watchdescriptors s /\
  paths (snd (Watcher_add K W (S fuel) pth mask s)) = paths s.
Proof.
  intros Hp Hrl Hwd. rewrite (Watcher_add_fresh K W (S fuel) pth mask s Hp).
  rewrite (Watch_init_leaf_refused K W fuel pth mask e s Hrl Hwd).
  repeat split.
Qed.

Lemma Watcher_add_leaf_refused_witness :
  fst (Watcher_add linux fs_full 1 "/tmp/f" IN_MODIFY_linux Watcher_init)
  = Exc (OSError ENOSPC) /\
  paths (snd (Watcher_add linux fs_full 1 "/tmp/f" IN_MODIFY_linux Watcher_init)) = ∅.
Proof.
  destruct (Watcher_add_leaf_refused linux fs_full 0 "/tmp/f" IN_MODIFY_linux ENOSPC
              Watcher_init (lookup_empty _) eq_refl eq_refl) as (Hexc & _ & Hpaths).
  exact (conj Hexc Hpaths).
Defined.

(** A first [add] of a path that is no symbolic link and whose entry is
    gone when [stat] is called: the [OSError] of [stat] leaves the call and
    the path is not entered, but the leaf link has been registered and
    appended before, and stays. *)
Theorem Watcher_add_stat_fails (K : Consts) (W : World) (fuel : nat) (pth : string)
    (mask wd : Z) (e : errno) (s : Store) :
  paths s !! pth = None ->
  os_readlink W pth = inl EINVAL ->
  inotify_add_watch W pth (Z.lor (Z.lor mask (IN_MOVE_SELF K)) (IN_DELETE_SELF K)) = inr wd ->
  os_stat W pth = inl e ->
  fst (Watcher_add K W (S fuel) pth mask s) = Exc (OSError e) /\
  paths (snd (Watcher_add K W (S fuel) pth mask s)) = paths s /\
  watchdescriptors (snd (Watcher_add K W (S fuel) pth mask s))
  = register pth (Z.lor (Z.lor mask (IN_MOVE_SELF K)) (IN_DELETE_SELF K)) None
             {| cb_watch := next_id s; cb_idx := 0 |} wd (watchdescriptors s) /\
  w_inode <$> objects (snd (Watcher_add K W (S fuel) pth mask s)) !! next_id s
  = Some None.
Proof.
  intros Hp Hrl Hwd Hst. rewrite (Watcher_add_fresh K W (S fuel) pth mask s Hp).
  rewrite (Watch_init_stat_fails K W fuel pth mask wd e s Hrl Hwd Hst). simpl.
  rewrite lookup_insert_eq. repeat split.
Qed.

Lemma Watcher_add_stat_fails_witness :
  fst (Watcher_add linux fs_vanishing 1 "/tmp/f" IN_MODIFY_linux Watcher_init)
  = Exc (OSError ENOENT) /\
  watchdescriptors (snd (Watcher_add linux fs_vanishing 1 "/tmp/f" IN_MODIFY_linux
                           Watcher_init))
  = register "/tmp/f" (leaf_mask linux IN_MODIFY_linux) None
             {| cb_watch := 0; cb_idx := 0 |} 1 ∅.
Proof.
  destruct (Watcher_add_stat_fails linux fs_vanishing 0 "/tmp/f" IN_MODIFY_linux 1 ENOENT
              Watcher_init (lookup_empty _) eq_refl eq_refl eq_refl)
    as (Hexc & _ & Hreg & _).
  exact (conj Hexc Hreg).
Defined.

(** ** The dispatch of a batch *)

Section Batches.

Context (K : Consts) (G : Globals).

Lemma dispatch_app_eq (a b : list rawevent) :
  forall events s,
    dispatch K G (a ++ b) events s
    = match dispatch K G a events s with
      | (Val events', s') => dispatch K G b events' s'
      | (Exc e, s') => (Exc e, s')
      | (Stuck, s') => (Stuck, s')
      end.
Proof.
  induction a as [|evt a IH]; intros events s; [reflexivity|].
  simpl. unfold bind, get.
  destruct (watchdescriptors s !! raw_wd evt) as [d|]; [|reflexivity].
  destruct (Descriptor_handle_event K G d evt s) as [[es| |] s1]; try reflexivity.
  apply IH.
Qed.

Lemma dispatch_prefix (evts : list rawevent) :
  forall events events' s s',
    dispatch K G evts events s = (Val events', s') ->
    exists new, events' = events ++ new.
Proof.
  induction evts as [|evt rest IH]; intros events events' s s'.
  - simpl. intros [= <- <-]. exists []. symmetry. apply app_nil_r.
  - simpl. unfold bind, get.
    destruct (watchdescriptors s !! raw_wd evt) as [d|]; [|discriminate].
    destruct (Descriptor_handle_event K G d evt s) as [[es| |] s1]; try discriminate.
    intros Hrest. apply IH in Hrest as [new ->]. exists (es ++ new).
    symmetry. apply app_assoc.
Qed.

Lemma run_callbacks_app_eq (c1 c2 : list (Z * option string * callback)) event :
  forall s,
  run_callbacks G (c1 ++ c2) event s
  = match run_callbacks G c1 event s with
    | (Val es, s') =>
        match run_callbacks G c2 event s' with
        | (Val es', s'') => (Val (es ++ es'), s'')
        | (Exc e, s'') => (Exc e, s'')
        | (Stuck, s'') => (Stuck, s'')
        end
    | (Exc e, s') => (Exc e, s')
    | (Stuck, s') => (Stuck, s')
    end.
Proof.
  induction c1 as [|[[m n] c] c1 IH]; intros s; simpl.
  - unfold ret. destruct (run_callbacks G c2 event s) as [[es'| |] s'']; reflexivity.
  - unfold bind.
    match goal with |- context [(if ?b then ?x else ?y) s] =>
      destruct ((if b then x else y) s) as [[es| |] s1] end; try reflexivity.
    rewrite IH.
    destruct (run_callbacks G c1 event s1) as [[es1| |] s2]; try reflexivity.
    unfold ret. cbv beta iota.
    destruct (run_callbacks G c2 event s2) as [[es2| |] s3]; try reflexivity.
    rewrite app_assoc. reflexivity.
Qed.

End Batches.

(** The events of one [read] come in the order of the raw events, and the
    events of one raw event in the order in which the callbacks were
    registered: dispatching a batch is dispatching its first part and then
    its second part on what the first left; running the callbacks of a
    descriptor is running the older ones and then the newer ones; and what
    was collected before is a prefix of what is collected after. *)
Theorem dispatch_in_order (K : Consts) (G : Globals) :
  (forall a b events s,
     dispatch K G (a ++ b) events s
     = match dispatch K G a events s with
       | (Val events', s') => dispatch K G b events' s'
       | (Exc e, s') => (Exc e, s')
       | (Stuck, s') => (Stuck, s')
       end) /\
  (forall c1 c2 event s,
     run_callbacks G (c1 ++ c2) event s
     = match run_callbacks G c1 event s with
       | (Val es, s') =>
           match run_callbacks G c2 event s' with
           | (Val es', s'') => (Val (es ++ es'), s'')
           | (Exc e, s'') => (Exc e, s'')
           | (Stuck, s'') => (Stuck, s'')
           end
       | (Exc e, s') => (Exc e, s')
       | (Stuck, s') => (Stuck, s')
       end) /\
  (forall evts events events' s s',
     dispatch K G evts events s = (Val events', s') ->
     exists new, events' = events ++ new).
Proof.
  split; [intros; apply dispatch_app_eq|].
  split; [intros; apply run_callbacks_app_eq|].
  intros evts events events' s s'. apply dispatch_prefix.
Qed.

(** A raw event about which no registration of a descriptor has anything
    to say (for each one: the masks share no bit, or the registration names
    an entry and the event is about another entry or about none) yields no
    event, and the store is not touched. *)
Theorem run_callbacks_none_match (G : Globals) (cbs : list (Z * option string * callback))
    (event : rawevent) (s : Store) :
  List.Forall (passes_by event) cbs ->
  run_callbacks G cbs event s = (Val [], s).
Proof.
  induction cbs as [|[[m n] c] cbs IH]; intros Hall; [reflexivity|].
  inversion Hall as [|? ? Hpass Hrest]; subst.
  assert (Hguard : negb (Z.land (raw_mask event) m =? 0)
                   && name_matches n (raw_name event) = false).
  { destruct Hpass as [Hzero | (x & Hn & Hname)]; simpl in *.
    - rewrite Hzero. reflexivity.
    - subst n. apply andb_false_iff. right.
      destruct (raw_name event) as [y|]; [|reflexivity]. simpl.
      apply String.eqb_neq. intros ->. apply Hname. reflexivity. }
  simpl. rewrite Hguard. unfold bind, ret. rewrite (IH Hrest). reflexivity.
Qed.

(** The callbacks of a watch of [/tmp] for the name [l] and of a watch for
    writes, and the raw event of the creation of an entry [f]. *)
Lemma run_callbacks_none_match_witness :
  run_callbacks linux_globals
    [(link_mask linux, Some "l", {| cb_watch := 0; cb_idx := 0 |});
     (leaf_mask linux IN_MODIFY_linux, None, {| cb_watch := 1; cb_idx := 0 |})]
    {| raw_wd := 2; raw_mask := 0x100; raw_cookie := 0; raw_name := Some "f" |}
    Watcher_init
  = (Val [], Watcher_init).
Proof.
  apply (run_callbacks_none_match linux_globals).
  constructor; [|constructor; [|constructor]].
  - right. exists "l". split; [reflexivity|discriminate].
  - left. reflexivity.
Defined.

(** ** [read]: what a failure costs, and the end of a descriptor *)

(** When [read] raises, nothing is buffered: the buffer was empty and is
    empty afterwards, so the events already collected from the batch are
    dropped; and unless the registry was empty, the low-level read has been
    made and its batch is gone. *)
Theorem Watcher_read_raise_drops_events (K : Consts) (G : Globals) (W : World)
    (s : Store) (block : bool) (bufsize : option Z) (store_events : bool) (e : exn) :
  fst (Watcher_read K G W block bufsize store_events s) = Exc e ->
  buffer s = [] /\
  buffer (snd (Watcher_read K G W block bufsize store_events s)) = [] /\
  (size (watchdescriptors s) <> 0%nat ->
   lowreads (snd (Watcher_read K G W block bufsize store_events s)) = S (lowreads s)).
Proof.
  intros Hexc.
  destruct (buffer s) as [|ev b] eqn:Hb.
  - split; [reflexivity|]. split.
    + destruct (Nat.eq_dec (size (watchdescriptors s)) 0%nat) as [Hsz|Hsz].
      * rewrite Watcher_read_no_files by assumption. exact Hb.
      * rewrite Watcher_read_unfold in Hexc |- * by assumption.
        destruct (inotify_read W (lowreads s) (read_bufsize block bufsize)) as [e'|evts];
          [exact Hb|].
        pose proof (dispatch_frame K G evts [] (after_low_read s)) as (_ & Hbuf & _).
        destruct (dispatch K G evts [] (after_low_read s)) as [[events| |] s'];
          simpl in Hbuf; try (simpl; congruence).
        destruct store_events; discriminate.
    + intros Hsz. apply Watcher_read_low; assumption.
  - rewrite Watcher_read_drain in Hexc by (rewrite Hb; discriminate). discriminate.
Qed.

(** The batch of a write to the watched file followed by the kernel's
    overflow notice: the event of the write is lost with the exception. *)
Lemma Watcher_read_raise_drops_events_witness :
  fst (Watcher_read linux linux_globals (fs [[modify_on 1; q_overflow]]) true None true
         (watching_f [[modify_on 1; q_overflow]])) = Exc (KeyError (-1)) /\
  buffer (snd (Watcher_read linux linux_globals (fs [[modify_on 1; q_overflow]])
                 true None true (watching_f [[modify_on 1; q_overflow]]))) = [].
Proof.
  assert (Hexc : fst (Watcher_read linux linux_globals (fs [[modify_on 1; q_overflow]])
                        true None true (watching_f [[modify_on 1; q_overflow]]))
                 = Exc (KeyError (-1))) by (vm_compute; reflexivity).
  destruct (Watcher_read_raise_drops_events linux linux_globals
              (fs [[modify_on 1; q_overflow]]) _ true None true _ Hexc) as (_ & Hbuf & _).
  exact (conj Hexc Hbuf).
Defined.

(** A raw event whose watch descriptor is not in the registry when its
    turn comes (the overflow notice, with descriptor -1, or an event that
    follows the removal of its descriptor) makes [read] raise [KeyError]
    with that descriptor; the events dispatched before it and the rest of
    the batch are lost. *)
Theorem Watcher_read_unknown_descriptor (K : Consts) (G : Globals) (W : World)
    (s s' : Store) (block : bool) (bufsize : option Z) (store_events : bool)
    (pre rest : list rawevent) (evt : rawevent) (events : list Event) :
  buffer s = [] ->
  size (watchdescriptors s) <> 0%nat ->
  inotify_read W (lowreads s) (read_bufsize block bufsize) = inr (pre ++ evt :: rest) ->
  dispatch K G pre [] (after_low_read s) = (Val events, s') ->
  watchdescriptors s' !! raw_wd evt = None ->
  Watcher_read K G W block bufsize store_events s = (Exc (KeyError (raw_wd evt)), s').
Proof.
  intros Hb Hsz Hread Hpre Hnone.
  rewrite Watcher_read_unfold by assumption. rewrite Hread.
  rewrite dispatch_app_eq, Hpre. simpl. unfold bind, get. rewrite Hnone. reflexivity.
Qed.

Lemma Watcher_read_unknown_descriptor_witness :
  Watcher_read linux linux_globals (fs [[modify_on 1; q_overflow; modify_on 1]])
    true None false (watching_f [[modify_on 1; q_overflow; modify_on 1]])
  = (Exc (KeyError (-1)),
     after_low_read (watching_f [[modify_on 1; q_overflow; modify_on 1]])).
Proof.
  apply (Watcher_read_unknown_descriptor linux linux_globals
           (fs [[modify_on 1; q_overflow; modify_on 1]]) _ _ true None false
           [modify_on 1] [modify_on 1] q_overflow [Event_init (modify_on 1) "tmp/f"]).
  - vm_compute. reflexivity.
  - vm_compute. discriminate.
  - reflexivity.
  - vm_compute. reflexivity.
  - vm_compute. reflexivity.
Defined.

(** The end of a descriptor.  A raw event that carries [IN_IGNORED], on a
    descriptor of the registry whose callbacks return, is dispatched like any
    other and then takes the descriptor out of the registry; a raw event on
    the same watch descriptor later in the batch makes [read] raise
    [KeyError]. *)
Theorem ignored_ends_descriptor (K : Consts) (G : Globals) (s : Store) (evt : rawevent)
    (d : Descriptor) (es events : list Event) :
  watchdescriptors s !! raw_wd evt = Some d ->
  d_wd d = raw_wd evt ->
  Z.land (raw_mask evt) (IN_IGNORED K) <> 0 ->
  run_callbacks G (d_callbacks d) evt s = (Val es, s) ->
  dispatch K G [evt] events s
  = (Val (events ++ es),
     with_watchdescriptors (delete (raw_wd evt) (watchdescriptors s)) s) /\
  (forall evt' rest,
     raw_wd evt' = raw_wd evt ->
     dispatch K G (evt :: evt' :: rest) events s
     = (Exc (KeyError (raw_wd evt)),
        with_watchdescriptors (delete (raw_wd evt) (watchdescriptors s)) s)).
Proof.
  intros Hd Hwd Hign Hrun.
  assert (Hone : Descriptor_handle_event K G d evt s
                 = (Val es, with_watchdescriptors
                              (delete (raw_wd evt) (watchdescriptors s)) s)).
  { unfold Descriptor_handle_event, bind. rewrite Hrun.
    destruct (Z.eqb_spec (Z.land (raw_mask evt) (IN_IGNORED K)) 0) as [H0|_];
      [contradiction|]. simpl.
    unfold Watcher_removewatch, bind, get, set_watchdescriptors.
    rewrite Hwd, Hd. reflexivity. }
  split.
  - simpl. unfold bind, get. rewrite Hd, Hone. reflexivity.
  - intros evt' rest Hsame. simpl. unfold bind, get. rewrite Hd, Hone.
    simpl. rewrite Hsame, lookup_delete_eq. reflexivity.
Qed.

(** The watched file is deleted: [IN_IGNORED] on its descriptor, then one
    more event on it. *)
Lemma ignored_ends_descriptor_witness :
  dispatch linux linux_globals [ignored_on 1; delete_self_on 1] [] (watching_f [])
  = (Exc (KeyError 1),
     with_watchdescriptors (delete 1 (watchdescriptors (watching_f []))) (watching_f [])).
Proof.
  destruct (ignored_ends_descriptor linux linux_globals (watching_f []) (ignored_on 1)
              {| d_wd := 1; d_mask := 3074;
                 d_callbacks := [(3074, None, {| cb_watch := 0; cb_idx := 0 |})] |}
              [] []) as (_ & Hnext).
  - vm_compute. reflexivity.
  - reflexivity.
  - vm_compute. discriminate.
  - vm_compute. reflexivity.
  - exact (Hnext (delete_self_on 1) [] eq_refl).
Defined.

(** ** One watch, one raw event *)

(** A first [add] of a path that is no symbolic link, then a [read] that
    answers one raw event on the new watch descriptor whose mask meets the
    mask of the leaf link: the watch yields its one event. *)
Lemma plain_watch_read_yielded (K : Consts) (G : Globals) (W : World) (fuel : nat)
    (F p : string) (mask : Z) (st : Z * Z) (block : bool) (bufsize : option Z)
    (event : rawevent) :
  os_readlink W F = inl EINVAL ->
  inotify_add_watch W F (leaf_mask K mask) = inr (raw_wd event) ->
  os_stat W F = inr st ->
  posixpath.join_star (Watch_normpath F) = Val p ->
  Z.land (raw_mask event) (leaf_mask K mask) <> 0 ->
  inotify_read W 0 (read_bufsize block bufsize) = inr [event] ->
  fst (Watcher_read K G W block bufsize false
         (snd (Watcher_add K W (S fuel) F mask Watcher_init)))
  = Val (Some [yielded G (resolved_watch K W 0 F mask (raw_wd event) st) p event 0]).
Proof.
  intros Hrl Hwd Hst Hp Hmeet Hread.
  rewrite Watcher_add_fresh by apply lookup_empty.
  rewrite (Watch_init_plain K W fuel F mask (raw_wd event) st Watcher_init Hrl Hwd Hst).
  cbn [snd].
  set (s1 := with_paths _ (resolved_store K W Watcher_init F mask (raw_wd event) st)).
  rewrite Watcher_read_unfold; [|reflexivity|apply register_size].
  change (lowreads s1) with 0%nat. rewrite Hread.
  assert (Hcb : negb (Z.land (raw_mask event) (leaf_mask K mask) =? 0)
                && name_matches None (raw_name event) = true).
  { apply andb_true_iff. split; [|reflexivity]. apply negb_true_iff, Z.eqb_neq.
    exact Hmeet. }
  assert (Hlook : watchdescriptors (after_low_read s1) !! raw_wd event
                  = Some (Descriptor_add_callback F (leaf_mask K mask) None
                            {| cb_watch := 0; cb_idx := 0 |}
                            (Descriptor_init (raw_wd event)))).
  { cbn [watchdescriptors after_low_read s1 with_paths resolved_store].
    rewrite register_lookup.
    change (watchdescriptors Watcher_init) with (∅ : gmap Z Descriptor).
    rewrite lookup_empty. reflexivity. }
  assert (Hobj : objects (after_low_read s1) !! 0%nat
                 = Some (resolved_watch K W 0 F mask (raw_wd event) st)).
  { cbn [objects after_low_read s1 with_paths resolved_store].
    apply lookup_insert_eq. }
  pose proof (run_callbacks_single G (leaf_mask K mask) None
                {| cb_watch := 0; cb_idx := 0 |} _ p event _ Hcb Hobj Hp) as Hrun.
  pose proof (Descriptor_handle_event_value K G
                (Descriptor_add_callback F (leaf_mask K mask) None
                   {| cb_watch := 0; cb_idx := 0 |} (Descriptor_init (raw_wd event)))
                _ event _ _ Hrun Hlook) as Hval.
  pose proof (dispatch_single K G event _ _ [] _ Hlook Hval) as Hdisp.
  destruct (dispatch K G [event] [] (after_low_read s1)) as [r s2].
  simpl in Hdisp. subst r. reflexivity.
Qed.

(** The forced interest surfaces as a changed link.  A watch on a path
    that is no symbolic link is registered with [IN_MOVE_SELF] and
    [IN_DELETE_SELF] added to the requested mask; when a raw event of moving
    or deleting the watched entry arrives and the caller's mask does not
    meet it, [read] returns one synthetic event (mask [IN_LINK_CHANGED],
    cookie 0, no name) and not the event itself. *)
Theorem forced_self_event_is_link_changed (K : Consts) (G : Globals) (W : World)
    (fuel : nat) (F p : string) (mask : Z) (st : Z * Z) (block : bool)
    (bufsize : option Z) (event : rawevent) :
  os_readlink W F = inl EINVAL ->
  inotify_add_watch W F (Z.lor (Z.lor mask (IN_MOVE_SELF K)) (IN_DELETE_SELF K))
  = inr (raw_wd event) ->
  os_stat W F = inr st ->
  posixpath.join_star (Watch_normpath F) = Val p ->
  Z.land (raw_mask event) mask = 0 ->
  Z.land (raw_mask event) (Z.lor (IN_MOVE_SELF K) (IN_DELETE_SELF K)) <> 0 ->
  inotify_read W 0 (read_bufsize block bufsize) = inr [event] ->
  fst (Watcher_read K G W block bufsize false
         (snd (Watcher_add K W (S fuel) F mask Watcher_init)))
  = Val (Some [ {| ev_raw := semirawevent (IN_LINK_CHANGED G) 0 None (raw_wd event);
                   ev_path := p; ev_mask := IN_LINK_CHANGED G; ev_cookie := 0;
                   ev_name := None |} ]).
Proof.
  intros Hrl Hwd Hst Hp Hzero Hself Hread.
  rewrite (plain_watch_read_yielded K G W fuel F p mask st block bufsize event
             Hrl Hwd Hst Hp); [| |exact Hread].
  - unfold yielded. cbn [w_mask resolved_watch]. rewrite Hzero.
    rewrite andb_false_r. reflexivity.
  - unfold leaf_mask. intros H. apply Hself.
    rewrite <- Z.lor_assoc, Z.land_lor_distr_r, Hzero, Z.lor_0_l in H. exact H.
Qed.

(** [/tmp/f] is watched for writes and deleted. *)
Lemma forced_self_event_is_link_changed_witness :
  fst (Watcher_read linux linux_globals (fs [[delete_self_on 1]]) true None false
         (snd (Watcher_add linux (fs [[delete_self_on 1]]) 1 "/tmp/f" IN_MODIFY_linux
                 Watcher_init)))
  = Val (Some [ {| ev_raw := semirawevent 0x100000000 0 None 1; ev_path := "tmp/f";
                   ev_mask := 0x100000000; ev_cookie := 0; ev_name := None |} ]).
Proof.
  apply (forced_self_event_is_link_changed linux linux_globals (fs [[delete_self_on 1]])
           0 "/tmp/f" "tmp/f" IN_MODIFY_linux (2049, 11) true None (delete_self_on 1)).
  - reflexivity.
  - reflexivity.
  - reflexivity.
  - reflexivity.
  - reflexivity.
  - vm_compute. discriminate.
  - reflexivity.
Defined.

Lemma concat_components_end (l : list string) :
  l <> [] -> List.Forall component l ->
  String.concat "/" l <> "" /\ posixpath.endswith_sep (String.concat "/" l) = false.
Proof.
  induction l as [|a l IH]; intros Hne Hl; [contradiction|].
  inversion Hl as [|? ? [Ha Hsep] Hrest]; subst.
  destruct l as [|b l'].
  - simpl. split; [exact Ha|apply endswith_no_sep; exact Hsep].
  - change (String.concat "/" (a :: b :: l'))
      with (a +:+ "/" +:+ String.concat "/" (b :: l')).
    destruct (IH ltac:(discriminate) Hrest) as [Hnonempty Hend].
    split.
    + apply string_app_not_empty. discriminate.
    + rewrite endswith_app by discriminate.
      rewrite (endswith_app "/" _ Hnonempty). exact Hend.
Qed.

Lemma clean_path_end (D : string) :
  clean_path D = true -> D <> "" /\ posixpath.endswith_sep D = false.
Proof.
  intros Hc. pose proof (Watch_normpath_components D) as Hcomp.
  rewrite (Watch_normpath_clean D Hc) in Hcomp.
  pose proof (concat_components_end _ (str_split_not_nil D) Hcomp) as H.
  rewrite concat_str_split in H. exact H.
Qed.

(** The event of a directory entry.  A directory is watched under a path
    with no empty and no [.] component; a raw event that meets the requested
    mask and names an entry gives one event whose full path is the requested
    path, a separator and the name, with the cookie of the raw event. *)
Theorem directory_entry_fullpath (K : Consts) (G : Globals) (W : World) (fuel : nat)
    (D n : string) (mask wd rm cookie : Z) (st : Z * Z) (block : bool)
    (bufsize : option Z) :
  clean_path D = true ->
  component n ->
  os_readlink W D = inl EINVAL ->
  inotify_add_watch W D (Z.lor (Z.lor mask (IN_MOVE_SELF K)) (IN_DELETE_SELF K)) = inr wd ->
  os_stat W D = inr st ->
  Z.land rm mask <> 0 ->
  inotify_read W 0 (read_bufsize block bufsize)
  = inr [ {| raw_wd := wd; raw_mask := rm; raw_cookie := cookie; raw_name := Some n |} ] ->
  exists e,
    fst (Watcher_read K G W block bufsize false
           (snd (Watcher_add K W (S fuel) D mask Watcher_init)))
    = Val (Some [e]) /\
    Event_fullpath e = D +:+ "/" +:+ n /\
    ev_mask e = rm /\ ev_cookie e = cookie /\ ev_name e = Some n.
Proof.
  intros Hclean [Hn Hsep] Hrl Hwd Hst Hmeet Hread.
  exists (Event_init {| raw_wd := wd; raw_mask := rm; raw_cookie := cookie;
                        raw_name := Some n |} D).
  split.
  - apply (plain_watch_read K G W fuel D D mask wd st block bufsize); try assumption.
    + apply join_star_clean. exact Hclean.
    + reflexivity.
  - split; [|repeat split].
    destruct (clean_path_end D Hclean) as [HD Hend].
    unfold Event_fullpath. simpl. destruct n as [|c r]; [contradiction|].
    unfold posixpath.join. simpl.
    apply join2_component; [exact HD|exact Hend|split; assumption].
Qed.

(** The entry [new] is created in the directory [tmp], watched for
    creations from the working directory [/]. *)
Lemma directory_entry_fullpath_witness :
  exists e,
    fst (Watcher_read linux linux_globals (fs_tmp [[create_on 2 "new"]]) true None false
           (snd (Watcher_add linux (fs_tmp [[create_on 2 "new"]]) 1 "tmp" 0x100
                   Watcher_init)))
    = Val (Some [e]) /\
    Event_fullpath e = "tmp/new" /\
    ev_mask e = 0x100 /\ ev_cookie e = 0 /\ ev_name e = Some "new".
Proof.
  apply (directory_entry_fullpath linux linux_globals (fs_tmp [[create_on 2 "new"]])
           0 "tmp" "new" 0x100 2 0x100 0 (2049, 2) true None).
  - reflexivity.
  - split; [discriminate|reflexivity].
  - reflexivity.
  - reflexivity.
  - reflexivity.
  - vm_compute. discriminate.
  - reflexivity.
Defined.

(** ** Two watches on one descriptor *)

(** Two paths of one file.  When the kernel answers the same watch
    descriptor for two requested paths (two names of one inode), the one
    [_Descriptor] holds one callback per watch, and a raw event on it is
    reported once for each watch, in the order the paths were added, each
    under the path its watch was requested with. *)
Theorem shared_descriptor_reports_each_watch (K : Consts) (G : Globals) (W : World)
    (fuel : nat) (F1 F2 p1 p2 : string) (mask1 mask2 : Z) (st1 st2 : Z * Z)
    (block : bool) (bufsize : option Z) (event : rawevent) :
  F1 <> F2 ->
  os_readlink W F1 = inl EINVAL ->
  os_readlink W F2 = inl EINVAL ->
  inotify_add_watch W F1 (Z.lor (Z.lor mask1 (IN_MOVE_SELF K)) (IN_DELETE_SELF K))
  = inr (raw_wd event) ->
  inotify_add_watch W F2 (Z.lor (Z.lor mask2 (IN_MOVE_SELF K)) (IN_DELETE_SELF K))
  = inr (raw_wd event) ->
  os_stat W F1 = inr st1 ->
  os_stat W F2 = inr st2 ->
  posixpath.join_star (Watch_normpath F1) = Val p1 ->
  posixpath.join_star (Watch_normpath F2) = Val p2 ->
  Z.land (raw_mask event) mask1 <> 0 ->
  Z.land (raw_mask event) mask2 <> 0 ->
  inotify_read W 0 (read_bufsize block bufsize) = inr [event] ->
  fst (Watcher_read K G W block bufsize false
         (snd (Watcher_add K W (S fuel) F2 mask2
                 (snd (Watcher_add K W (S fuel) F1 mask1 Watcher_init)))))
  = Val (Some [Event_init event p1; Event_init event p2]).
Proof.
  intros Hne Hrl1 Hrl2 Hwd1 Hwd2 Hst1 Hst2 Hp1 Hp2 Hm1 Hm2 Hread.
  rewrite (Watcher_add_fresh K W (S fuel) F1 mask1 Watcher_init) by apply lookup_empty.
  rewrite (Watch_init_plain K W fuel F1 mask1 (raw_wd event) st1 Watcher_init
             Hrl1 Hwd1 Hst1).
  cbn [snd].
  set (s1 := with_paths _ (resolved_store K W Watcher_init F1 mask1 (raw_wd event) st1)).
  rewrite (Watcher_add_fresh K W (S fuel) F2 mask2 s1).
  2:{ cbn [paths s1 with_paths]. rewrite lookup_insert_ne by exact Hne.
      apply lookup_empty. }
  rewrite (Watch_init_plain K W fuel F2 mask2 (raw_wd event) st2 s1 Hrl2 Hwd2 Hst2).
  cbn [snd].
  set (s2 := with_paths _ (resolved_store K W s1 F2 mask2 (raw_wd event) st2)).
  rewrite Watcher_read_unfold; [|reflexivity|apply register_size].
  change (lowreads s2) with 0%nat. rewrite Hread.
  set (cb1 := (leaf_mask K mask1, @None string, {| cb_watch := 0; cb_idx := 0 |})).
  set (cb2 := (leaf_mask K mask2, @None string, {| cb_watch := 1; cb_idx := 0 |})).
  assert (Hlook : exists d, watchdescriptors (after_low_read s2) !! raw_wd event = Some d
                            /\ d_wd d = raw_wd event /\ d_callbacks d = [cb1] ++ [cb2]).
  { eexists. split.
    - cbn [watchdescriptors after_low_read s2 with_paths resolved_store].
      rewrite register_lookup.
      cbn [watchdescriptors s1 with_paths resolved_store].
      rewrite register_lookup.
      change (watchdescriptors Watcher_init) with (∅ : gmap Z Descriptor).
      rewrite lookup_empty. reflexivity.
    - split; reflexivity. }
  destruct Hlook as (d & Hlook & Hdwd & Hcbs).
  assert (Hobj1 : objects (after_low_read s2) !! 0%nat
                  = Some (resolved_watch K W 0 F1 mask1 (raw_wd event) st1)).
  { cbn [objects after_low_read s2 with_paths resolved_store next_id s1].
    rewrite lookup_insert_ne by discriminate. apply lookup_insert_eq. }
  assert (Hobj2 : objects (after_low_read s2) !! 1%nat
                  = Some (resolved_watch K W 1 F2 mask2 (raw_wd event) st2)).
  { cbn [objects after_low_read s2 with_paths resolved_store next_id s1].
    apply lookup_insert_eq. }
  assert (Hcond : forall mask, Z.land (raw_mask event) mask <> 0 ->
            negb (Z.land (raw_mask event) (leaf_mask K mask) =? 0)
            && name_matches None (raw_name event) = true).
  { intros mask Hm. apply andb_true_iff. split; [|reflexivity].
    apply negb_true_iff, Z.eqb_neq. unfold leaf_mask. intros H.
    rewrite <- Z.lor_assoc, Z.land_lor_distr_r in H.
    apply Z.lor_eq_0_iff in H as [H _]. contradiction. }
  assert (Hy : forall self F mask st p, Z.land (raw_mask event) mask <> 0 ->
            yielded G (resolved_watch K W self F mask (raw_wd event) st) p event 0
            = Event_init event p).
  { intros self F mask st p Hm. unfold yielded. cbn [w_mask w_links resolved_watch length].
    apply Z.eqb_neq in Hm. rewrite Hm. reflexivity. }
  pose proof (run_callbacks_single G (leaf_mask K mask1) None
                {| cb_watch := 0; cb_idx := 0 |} _ p1 event _ (Hcond _ Hm1) Hobj1 Hp1)
    as Hrun1.
  pose proof (run_callbacks_single G (leaf_mask K mask2) None
                {| cb_watch := 1; cb_idx := 0 |} _ p2 event _ (Hcond _ Hm2) Hobj2 Hp2)
    as Hrun2.
  cbn [cb_idx] in Hrun1, Hrun2. rewrite Hy in Hrun1, Hrun2 by assumption.
  assert (Hrun : run_callbacks G (d_callbacks d) event (after_low_read s2)
                 = (Val [Event_init event p1; Event_init event p2], after_low_read s2)).
  { rewrite Hcbs, run_callbacks_app_eq. unfold cb1, cb2. rewrite Hrun1, Hrun2.
    reflexivity. }
  rewrite <- Hdwd in Hlook.
  pose proof (Descriptor_handle_event_value K G d _ event _ _ Hrun Hlook) as Hval.
  rewrite Hdwd in Hlook.
  pose proof (dispatch_single K G event _ _ [] _ Hlook Hval) as Hdisp.
  destruct (dispatch K G [event] [] (after_low_read s2)) as [r s3].
  simpl in Hdisp. subst r. reflexivity.
Qed.

(** The file [/tmp/f] is added as [f] from its directory and as [/tmp/f], and
    then written to. *)
Lemma shared_descriptor_reports_each_watch_witness :
  fst (Watcher_read linux linux_globals (fs [[modify_on 1]]) true None false
         (snd (Watcher_add linux (fs [[modify_on 1]]) 1 "/tmp/f" IN_MODIFY_linux
                 (snd (Watcher_add linux (fs [[modify_on 1]]) 1 "f" IN_MODIFY_linux
                         Watcher_init)))))
  = Val (Some [Event_init (modify_on 1) "f"; Event_init (modify_on 1) "tmp/f"]).
Proof.
  apply (shared_descriptor_reports_each_watch linux linux_globals (fs [[modify_on 1]])
           0 "f" "/tmp/f" "f" "tmp/f" IN_MODIFY_linux IN_MODIFY_linux
           (2049, 11) (2049, 11) true None (modify_on 1)).
  - discriminate.
  - reflexivity.
  - reflexivity.
  - reflexivity.
  - reflexivity.
  - reflexivity.
  - reflexivity.
  - reflexivity.
  - reflexivity.
  - vm_compute. discriminate.
  - vm_compute. discriminate.
  - reflexivity.
Defined.
